(** * Terminal markdown editor: line buffer, cursor, dirty flag and palette

    A shallow embedding of [src/editor.ts] (class [Editor]) and the
    properties of its line buffer, cursor tracking, persistence flag and
    command palette adapter, followed by the argument handling and the
    interrupt handlers of the command line script.

    Modelling conventions.
    - A JavaScript string is a [string]: a finite sequence of code units.
      The editor only measures strings ([length]), cuts them at an index
      ([slice]), concatenates them and splits them at the line feed, so the
      code units are taken from [ascii]; the line feed is ["010"].
    - A JavaScript array is a list of slots; a slot is [Some v] or [None]
      for a hole, which reads as [undefined].  Writing past the end of an
      array extends it with holes, as in JavaScript.
    - The cursor coordinates, the scroll offset and the selected index are
      natural numbers: the class starts them at 0 and only ever adds string
      or array lengths to them.
    - The file system and the command collaborator
      ([@compilr-dev/editor-core]) are not part of the repository; they are
      interfaces here ([Fs.FileSystem], [EditorCore.CommandCore]).
    - An exception is an explicit outcome ([Throw], [Threw]).
    - An asynchronous method is cut at its [await]: the part before it runs
      at the call, the part after it on the state the editor has when the
      awaited promise settles. *)

From Stdlib Require Import Strings.Ascii Strings.String.
From stdpp Require Import base list strings.

(** ** JavaScript built-ins used by the editor *)

Module JS.

(** The line feed, ['\n']. *)
Definition LF : ascii := "010"%char.

(** [s.length]. *)
Definition length (s : string) : nat := String.length s.

Fixpoint str_take (n : nat) (s : string) : string :=
  match n, s with
  | S n', String c s' => String c (str_take n' s')
  | _, _ => ""
  end.

Fixpoint str_drop (n : nat) (s : string) : string :=
  match n, s with
  | S n', String c s' => str_drop n' s'
  | _, _ => s
  end.

(** [s.slice(b, e)] for non-negative integers [b], [e]: the code units
    from [min b len] up to [min e len], nothing when [e <= b]. *)
Definition slice (s : string) (b e : nat) : string :=
  str_take (e - b) (str_drop b s).

(** [s.slice(b)]: everything from index [b] on. *)
Definition slice_from (s : string) (b : nat) : string := str_drop b s.

(** [s.split(sep)] for a one-character separator: always at least one
    piece; [n] separators give [n + 1] pieces. *)
Fixpoint split (sep : ascii) (s : string) : list string :=
  match s with
  | EmptyString => [""]
  | String c s' =>
      if Ascii.eqb c sep then "" :: split sep s'
      else match split sep s' with
           | piece :: rest => String c piece :: rest
           | [] => [String c ""]
           end
  end.

(** Number of occurrences of a code unit in a string. *)
Fixpoint occurrences (c : ascii) (s : string) : nat :=
  match s with
  | EmptyString => 0
  | String c' s' => (if Ascii.eqb c' c then 1 else 0) + occurrences c s'
  end.

(** [x || ''] for [x] a string or [undefined]. *)
Definition or_empty (x : option string) : string :=
  match x with
  | Some s => s
  | None => ""
  end.

(** [arr.join(sep)]: holes and [undefined] contribute the empty string. *)
Fixpoint join (sep : string) (arr : list (option string)) : string :=
  match arr with
  | [] => ""
  | [x] => or_empty x
  | x :: rest => or_empty x +:+ sep +:+ join sep rest
  end.

(** [arr[i]] read: [None] is [undefined] (index out of range, or a hole). *)
Definition get {A} (arr : list (option A)) (i : nat) : option A :=
  match arr !! i with
  | Some slot => slot
  | None => None
  end.

(** [arr[i] = v]: in range, overwrite the slot; out of range, the array
    grows to length [i + 1] and the slots in between are holes. *)
Definition set {A} (arr : list (option A)) (i : nat) (v : A)
  : list (option A) :=
  if decide (i < List.length arr) then <[i := Some v]> arr
  else arr ++ replicate (i - List.length arr) None ++ [Some v].

(** [arr.splice(start, 0, item)]: insert one item at [start], clamped to
    the length of the array. *)
Definition splice_insert {A} (arr : list (option A)) (start : nat) (item : A)
  : list (option A) :=
  take start arr ++ Some item :: drop start arr.

(** [s.replace(pat, '')] with a string pattern: the first occurrence of
    [pat] is removed (the empty pattern matches at index 0). *)
Fixpoint remove_first (pat s : string) : string :=
  if String.prefix pat s then str_drop (String.length pat) s
  else match s with
       | EmptyString => ""
       | String c s' => String c (remove_first pat s')
       end.

(** White space and line terminators, as [trim] sees them, among the
    code units below 256. *)
Definition is_ws (c : ascii) : bool :=
  match N_of_ascii c with
  | 9 | 10 | 11 | 12 | 13 | 32 | 160 => true
  | _ => false
  end%N.

Fixpoint trim_start (s : string) : string :=
  match s with
  | EmptyString => ""
  | String c s' => if is_ws c then trim_start s' else s
  end.

Fixpoint trim_end (s : string) : string :=
  match s with
  | EmptyString => ""
  | String c s' =>
      match trim_end s' with
      | EmptyString => if is_ws c then "" else String c ""
      | t => String c t
      end
  end.

(** [s.trim()]. *)
Definition trim (s : string) : string := trim_end (trim_start s).

(** A value is falsy when it is [undefined] or the empty string. *)
Definition truthy (x : option string) : bool :=
  match x with
  | Some (String _ _) => true
  | _ => false
  end.

(** What a JavaScript call can throw here. *)
Inductive exn : Type :=
| TypeError
| IOError
| CommandError.

Inductive result (A : Type) : Type :=
| Ok (a : A)
| Throw (e : exn).
Arguments Ok {A} a.
Arguments Throw {A} e.

Global Instance result_bind : MBind result := fun A B k m =>
  match m with
  | Ok a => k a
  | Throw e => Throw e
  end.

End JS.

(** ** The command collaborator, [@compilr-dev/editor-core]

  Only its call interface is known to the editor: a registry that can be
  listed and searched, a parser for slash-command input and an
  asynchronous executor.  The registry is fixed once the editor is
  constructed ([registerCommands(builtinCommands)] runs first in the
  constructor). *)

Module EditorCore.

Record CursorPosition : Type := {
  line : nat;
  column : nat;
  offset : nat
}.

(** [selection] and [metadata] are always [undefined] in this editor. *)
Record CommandContext : Type := {
  cursor : CursorPosition;
  content : string;
  selection : option unit;
  metadata : option unit
}.

Class CommandCore : Type := {
  SlashCommand : Type;
  (** [command.name] *)
  name : SlashCommand -> string;
  CommandArgs : Type;
  (** [parseCommandInput(input)]: a name and arguments, or [null]. *)
  parseCommandInput : string -> option (string * CommandArgs);
  (** [await executeCommand(name, args, context)]: the text to insert, or
      a rejection. *)
  executeCommand : string -> CommandArgs -> CommandContext -> JS.result string;
  (** [getAllCommands()] *)
  getAllCommands : list SlashCommand;
  (** [searchCommands(query)] *)
  searchCommands : string -> list SlashCommand
}.

End EditorCore.

(** ** The file system, module [fs] *)

Module Fs.

Class FileSystem : Type := {
  FS : Type;
  existsSync : FS -> string -> bool;
  (** [readFileSync(path, 'utf-8')]: the content, or an exception. *)
  readFileSync : FS -> string -> JS.result string;
  (** [writeFileSync(path, data, 'utf-8')]: the file system after the
      call, and whether the call returned or threw. *)
  writeFileSync : FS -> string -> string -> FS * JS.result unit
}.

End Fs.

(** ** The editor, [src/editor.ts] *)

Module Editor.

Record EditorOptions : Type := {
  opt_filePath : option string;
  opt_content : option string;
  opt_theme : option string
}.

(** [new Editor()]: the default argument [{}]. *)
Definition no_options : EditorOptions :=
  {| opt_filePath := None; opt_content := None; opt_theme := None |}.

Section WithCollaborators.

Context {core : EditorCore.CommandCore} {fsys : Fs.FileSystem}.

Record EditorState : Type := {
  lines : list (option string);
  cursorLine : nat;
  cursorColumn : nat;
  scrollOffset : nat;
  isDirty : bool;
  filePath : option string;
  theme : string;
  isCommandPaletteOpen : bool;
  commandInput : string;
  filteredCommands : list EditorCore.SlashCommand;
  selectedCommandIndex : nat
}.

(** Field assignments [this.state.f = v]. *)

Definition set_lines (v : list (option string)) (st : EditorState) :=
  {| lines := v; cursorLine := cursorLine st;
     cursorColumn := cursorColumn st; scrollOffset := scrollOffset st;
     isDirty := isDirty st; filePath := filePath st; theme := theme st;
     isCommandPaletteOpen := isCommandPaletteOpen st;
     commandInput := commandInput st;
     filteredCommands := filteredCommands st;
     selectedCommandIndex := selectedCommandIndex st |}.

Definition set_cursorLine (v : nat) (st : EditorState) :=
  {| lines := lines st; cursorLine := v;
     cursorColumn := cursorColumn st; scrollOffset := scrollOffset st;
     isDirty := isDirty st; filePath := filePath st; theme := theme st;
     isCommandPaletteOpen := isCommandPaletteOpen st;
     commandInput := commandInput st;
     filteredCommands := filteredCommands st;
     selectedCommandIndex := selectedCommandIndex st |}.

Definition set_cursorColumn (v : nat) (st : EditorState) :=
  {| lines := lines st; cursorLine := cursorLine st;
     cursorColumn := v; scrollOffset := scrollOffset st;
     isDirty := isDirty st; filePath := filePath st; theme := theme st;
     isCommandPaletteOpen := isCommandPaletteOpen st;
     commandInput := commandInput st;
     filteredCommands := filteredCommands st;
     selectedCommandIndex := selectedCommandIndex st |}.

Definition set_isDirty (v : bool) (st : EditorState) :=
  {| lines := lines st; cursorLine := cursorLine st;
     cursorColumn := cursorColumn st; scrollOffset := scrollOffset st;
     isDirty := v; filePath := filePath st; theme := theme st;
     isCommandPaletteOpen := isCommandPaletteOpen st;
     commandInput := commandInput st;
     filteredCommands := filteredCommands st;
     selectedCommandIndex := selectedCommandIndex st |}.

Definition set_isCommandPaletteOpen (v : bool) (st : EditorState) :=
  {| lines := lines st; cursorLine := cursorLine st;
     cursorColumn := cursorColumn st; scrollOffset := scrollOffset st;
     isDirty := isDirty st; filePath := filePath st; theme := theme st;
     isCommandPaletteOpen := v;
     commandInput := commandInput st;
     filteredCommands := filteredCommands st;
     selectedCommandIndex := selectedCommandIndex st |}.

Definition set_commandInput (v : string) (st : EditorState) :=
  {| lines := lines st; cursorLine := cursorLine st;
     cursorColumn := cursorColumn st; scrollOffset := scrollOffset st;
     isDirty := isDirty st; filePath := filePath st; theme := theme st;
     isCommandPaletteOpen := isCommandPaletteOpen st;
     commandInput := v;
     filteredCommands := filteredCommands st;
     selectedCommandIndex := selectedCommandIndex st |}.

Definition set_filteredCommands (v : list EditorCore.SlashCommand)
    (st : EditorState) :=
  {| lines := lines st; cursorLine := cursorLine st;
     cursorColumn := cursorColumn st; scrollOffset := scrollOffset st;
     isDirty := isDirty st; filePath := filePath st; theme := theme st;
     isCommandPaletteOpen := isCommandPaletteOpen st;
     commandInput := commandInput st;
     filteredCommands := v;
     selectedCommandIndex := selectedCommandIndex st |}.

Definition set_selectedCommandIndex (v : nat) (st : EditorState) :=
  {| lines := lines st; cursorLine := cursorLine st;
     cursorColumn := cursorColumn st; scrollOffset := scrollOffset st;
     isDirty := isDirty st; filePath := filePath st; theme := theme st;
     isCommandPaletteOpen := isCommandPaletteOpen st;
     commandInput := commandInput st;
     filteredCommands := filteredCommands st;
     selectedCommandIndex := v |}.

(** [for (let i = lo; i < hi; i++) body], threading the state. *)
Definition for_range {S : Type} (lo hi : nat) (body : nat -> S -> S)
    (s : S) : S :=
  fold_left (fun acc i => body i acc) (seq lo (hi - lo)) s.

(** [pieces[i]] on the result of [split], an array without holes; every
    index read by [insertText] is in range. *)
Definition piece (pieces : list string) (i : nat) : string :=
  default "" (pieces !! i).

(** [constructor(options)].  The call [registerCommands(builtinCommands)]
    that opens it acts on the collaborator's registry only. *)
Definition constructor (fs : Fs.FS) (options : EditorOptions)
  : JS.result EditorState :=
  let content := JS.or_empty (opt_content options) in
  content ←
    (if JS.truthy (opt_filePath options)
        && Fs.existsSync fs (JS.or_empty (opt_filePath options))
     then Fs.readFileSync fs (JS.or_empty (opt_filePath options))
     else JS.Ok content);
  JS.Ok {| lines := Some <$> JS.split JS.LF content;
           cursorLine := 0;
           cursorColumn := 0;
           scrollOffset := 0;
           isDirty := false;
           filePath := opt_filePath options;
           theme := if JS.truthy (opt_theme options)
                    then JS.or_empty (opt_theme options) else "default";
           isCommandPaletteOpen := false;
           commandInput := "";
           filteredCommands := [];
           selectedCommandIndex := 0 |}.

(** [getContent()] *)
Definition getContent (st : EditorState) : string :=
  JS.join (String JS.LF "") (lines st).

(** [setContent(content)] *)
Definition setContent (content : string) (st : EditorState) : EditorState :=
  let st := set_lines (Some <$> JS.split JS.LF content) st in
  set_isDirty true st.

(** [getState()]: a copy of the state record (the copy shares the lines
    array with the editor).  [isDirty()] is the field of that name. *)
Definition getState (st : EditorState) : EditorState := st.

(** [getCursor()] *)
Definition getCursor (st : EditorState) : nat * nat :=
  (cursorLine st, cursorColumn st).

(** [insertText(text)] *)
Definition insertText (text : string) (st : EditorState) : EditorState :=
  let cl := cursorLine st in
  let cc := cursorColumn st in
  let currentLine := JS.or_empty (JS.get (lines st) cl) in
  (* Split the text into lines *)
  let insertLines := JS.split JS.LF text in
  let st :=
    if decide (length insertLines = 1) then
      (* Single line insert *)
      let st :=
        set_lines
          (JS.set (lines st) cl
             (JS.slice currentLine 0 cc +:+ text
              +:+ JS.slice_from currentLine cc)) st in
      set_cursorColumn (cursorColumn st + JS.length text) st
    else
      (* Multi-line insert *)
      let beforeCursor := JS.slice currentLine 0 cc in
      let afterCursor := JS.slice_from currentLine cc in
      (* First line *)
      let st :=
        set_lines
          (JS.set (lines st) cl (beforeCursor +:+ piece insertLines 0)) st in
      (* Middle lines *)
      let st :=
        for_range 1 (length insertLines - 1)
          (fun i st =>
             set_lines
               (JS.splice_insert (lines st) (cl + i) (piece insertLines i))
               st)
          st in
      (* Last line *)
      let lastLineIndex := cl + length insertLines - 1 in
      let lastInsertLine := piece insertLines (length insertLines - 1) in
      let st :=
        set_lines
          (JS.splice_insert (lines st) lastLineIndex
             (lastInsertLine +:+ afterCursor)) st in
      (* Update cursor position *)
      let st := set_cursorLine lastLineIndex st in
      set_cursorColumn (JS.length lastInsertLine) st
  in
  set_isDirty true st.

(** [save()]: the returned boolean, the editor state and the file system
    after the call. *)
Definition save (fs : Fs.FS) (st : EditorState)
  : bool * EditorState * Fs.FS :=
  if negb (JS.truthy (filePath st)) then (false, st, fs)
  else
    match Fs.writeFileSync fs (JS.or_empty (filePath st)) (getContent st) with
    | (fs', JS.Ok _) => (true, set_isDirty false st, fs')
    | (fs', JS.Throw _) => (false, st, fs')
    end.

(** [openCommandPalette()] *)
Definition openCommandPalette (st : EditorState) : EditorState :=
  let st := set_isCommandPaletteOpen true st in
  let st := set_commandInput "" st in
  let st := set_filteredCommands EditorCore.getAllCommands st in
  set_selectedCommandIndex 0 st.

(** [closeCommandPalette()] *)
Definition closeCommandPalette (st : EditorState) : EditorState :=
  let st := set_isCommandPaletteOpen false st in
  let st := set_commandInput "" st in
  let st := set_filteredCommands [] st in
  set_selectedCommandIndex 0 st.

(** [filterCommands(input)] *)
Definition filterCommands (input : string) (st : EditorState)
  : EditorState :=
  let st := set_commandInput input st in
  let st :=
    if JS.truthy (Some input)
    then set_filteredCommands (EditorCore.searchCommands input) st
    else set_filteredCommands EditorCore.getAllCommands st in
  set_selectedCommandIndex 0 st.

(** [createCommandContext()]: reading [.length] of a missing line throws
    a [TypeError]. *)
Definition createCommandContext (st : EditorState)
  : JS.result EditorCore.CommandContext :=
  let cl := cursorLine st in
  let cc := cursorColumn st in
  let content := getContent st in
  (* Calculate offset from line/column *)
  offset ←
    fold_left
      (fun acc i =>
         offset ← acc;
         match JS.get (lines st) i with
         | Some l => JS.Ok (offset + (JS.length l + 1))
         | None => JS.Throw JS.TypeError
         end)
      (seq 0 cl) (JS.Ok 0);
  let offset := offset + cc in
  JS.Ok {| EditorCore.cursor :=
             {| EditorCore.line := cl; EditorCore.column := cc;
                EditorCore.offset := offset |};
           EditorCore.content := content;
           EditorCore.selection := None;
           EditorCore.metadata := None |}.

(** How an asynchronous method settles: it returns, or it throws; either
    way the editor state it leaves behind is recorded. *)
Inductive completion : Type :=
| Returned (st : EditorState)
| Threw (e : JS.exn) (st : EditorState).

Definition final_state (c : completion) : EditorState :=
  match c with
  | Returned st => st
  | Threw _ st => st
  end.

(** Where [executeSelectedCommand] stands when its synchronous part ends:
    it has settled already, or it has called the executor with a name,
    arguments and a context and awaits the answer. *)
Inductive suspension : Type :=
| Completed (c : completion)
| Awaiting (parsed_name : string) (parsed_args : EditorCore.CommandArgs)
    (context : EditorCore.CommandContext).

(** [executeSelectedCommand()] up to its [await]: the selection guard, the
    command line, the parser, the context and the call of the executor.
    This part only reads the state, except that a command line that does
    not parse closes the palette at once. *)
Definition executeSelectedCommand_start (st : EditorState) : suspension :=
  match filteredCommands st !! selectedCommandIndex st with
  | None => Completed (Returned st)
  | Some command =>
      (* Parse any arguments from the command input *)
      let fullInput :=
        "/" +:+ EditorCore.name command +:+ " "
        +:+ JS.trim
              (JS.remove_first (EditorCore.name command) (commandInput st)) in
      match EditorCore.parseCommandInput fullInput with
      | Some (parsed_name, parsed_args) =>
          match createCommandContext st with
          | JS.Throw e => Completed (Threw e st)
          | JS.Ok context => Awaiting parsed_name parsed_args context
          end
      | None => Completed (Returned (closeCommandPalette st))
      end
  end.

(** [executeSelectedCommand()] from its [await] on.  [settled] is what the
    executor's promise settled with and [st] is the editor state when the
    method resumes: [insertText(result)] and [closeCommandPalette()] act on
    that state, whatever it has become since the call; a rejection is
    rethrown and nothing is done. *)
Definition executeSelectedCommand_resume (settled : JS.result string)
    (st : EditorState) : completion :=
  match settled with
  | JS.Throw e => Threw e st
  | JS.Ok result =>
      let st := insertText result st in
      Returned (closeCommandPalette st)
  end.

(** [executeSelectedCommand()], whole.  [during] is what the calls made on
    the editor while the executor is awaited do to the state (the identity
    when there are none); the executor answers the request it was sent. *)
Definition executeSelectedCommand (during : EditorState -> EditorState)
    (st : EditorState) : completion :=
  match executeSelectedCommand_start st with
  | Completed c => c
  | Awaiting parsed_name parsed_args context =>
      executeSelectedCommand_resume
        (EditorCore.executeCommand parsed_name parsed_args context)
        (during st)
  end.

(** What [executeCommand(input)] does before it hands back the executor's
    promise: [null] when the input does not parse, otherwise the request
    sent to the executor, unless building the context throws. *)
Definition executeCommand_request (input : string) (st : EditorState)
  : JS.result
      (option (string * EditorCore.CommandArgs * EditorCore.CommandContext)) :=
  match EditorCore.parseCommandInput input with
  | None => JS.Ok None
  | Some (parsed_name, parsed_args) =>
      context ← createCommandContext st;
      JS.Ok (Some (parsed_name, parsed_args, context))
  end.

(** [executeCommand(input)]: the command's text, [null] when the input
    does not parse; the editor state is not touched. *)
Definition executeCommand (input : string) (st : EditorState)
  : JS.result (option string) :=
  match EditorCore.parseCommandInput input with
  | None => JS.Ok None
  | Some (parsed_name, parsed_args) =>
      context ← createCommandContext st;
      result ← EditorCore.executeCommand parsed_name parsed_args context;
      JS.Ok (Some result)
  end.

(** The calls that act on the editor state, and one step of each.  The
    step of [executeSelectedCommand] is a call that no other call
    interrupts; a call that is interrupted while it awaits is the session
    of the interrupting calls followed by [InsertText] of the result and
    [CloseCommandPalette]. *)
Inductive operation : Type :=
| SetContent (content : string)
| InsertText (text : string)
| Save
| OpenCommandPalette
| CloseCommandPalette
| FilterCommands (input : string)
| ExecuteSelectedCommand
| ExecuteCommand (input : string).

Definition step (op : operation) (fs : Fs.FS) (st : EditorState)
  : EditorState * Fs.FS :=
  match op with
  | SetContent content => (setContent content st, fs)
  | InsertText text => (insertText text st, fs)
  | Save => let '(_, st, fs) := save fs st in (st, fs)
  | OpenCommandPalette => (openCommandPalette st, fs)
  | CloseCommandPalette => (closeCommandPalette st, fs)
  | FilterCommands input => (filterCommands input st, fs)
  | ExecuteSelectedCommand =>
      (final_state (executeSelectedCommand (fun st => st) st), fs)
  | ExecuteCommand _ => (st, fs)
  end.

(** The cursor invariant of the data model: the cursor line exists and
    the column is within it. *)
Definition cursor_valid (st : EditorState) : Prop :=
  exists l, lines st !! cursorLine st = Some (Some l)
            /\ cursorColumn st <= JS.length l.

(** The palette sub-state after [closeCommandPalette]. *)
Definition palette_closed (st : EditorState) : Prop :=
  isCommandPaletteOpen st = false /\ commandInput st = ""
  /\ filteredCommands st = [] /\ selectedCommandIndex st = 0.

End WithCollaborators.

Arguments EditorState {core}.
Arguments completion {core}.
Arguments suspension {core}.

End Editor.

(** ** Concrete collaborators for the worked scenarios *)

Module Fixture.

(** A registry of two commands; every input that starts with the command
    marker parses, and every command inserts a horizontal rule. *)
#[local] Instance core : EditorCore.CommandCore := {|
  EditorCore.SlashCommand := string;
  EditorCore.name := fun c => c;
  EditorCore.CommandArgs := unit;
  EditorCore.parseCommandInput := fun input =>
    match input with
    | String "/" rest => Some (rest, tt)
    | _ => None
    end;
  EditorCore.executeCommand := fun _ _ _ => JS.Ok "---";
  EditorCore.getAllCommands := ["h1"; "hr"];
  EditorCore.searchCommands := fun query =>
    filter (fun c => String.prefix query c = true) ["h1"; "hr"]
|}.

(** An in-memory file system: a list of (path, content), newest first;
    reads and writes never throw. *)
#[local] Instance fsys : Fs.FileSystem := {|
  Fs.FS := list (string * string);
  Fs.existsSync := fun fs path =>
    bool_decide (is_Some (list_find (fun e => e.1 = path) fs));
  Fs.readFileSync := fun fs path =>
    match list_find (fun e => e.1 = path) fs with
    | Some (_, e) => JS.Ok e.2
    | None => JS.Throw JS.IOError
    end;
  Fs.writeFileSync := fun fs path data => ((path, data) :: fs, JS.Ok tt)
|}.

(** The document ["a\nb"] with the cursor at line 0, column 1. *)
Definition ab_at_0_1 : Editor.EditorState := {|
  Editor.lines := [Some "a"; Some "b"];
  Editor.cursorLine := 0;
  Editor.cursorColumn := 1;
  Editor.scrollOffset := 0;
  Editor.isDirty := false;
  Editor.filePath := None;
  Editor.theme := "default";
  Editor.isCommandPaletteOpen := false;
  Editor.commandInput := "";
  Editor.filteredCommands := [];
  Editor.selectedCommandIndex := 0
|}.

(** The text ["X\nY"]. *)
Definition X_nl_Y : string := "X" +:+ String JS.LF "Y".

(** A new, empty document: what [new Editor()] builds. *)
Definition empty_document : Editor.EditorState := {|
  Editor.lines := [Some ""];
  Editor.cursorLine := 0;
  Editor.cursorColumn := 0;
  Editor.scrollOffset := 0;
  Editor.isDirty := false;
  Editor.filePath := None;
  Editor.theme := "default";
  Editor.isCommandPaletteOpen := false;
  Editor.commandInput := "";
  Editor.filteredCommands := [];
  Editor.selectedCommandIndex := 0
|}.

(** The document ["abc"] with the cursor at its end, after typing it into
    an empty document. *)
Definition abc_typed : Editor.EditorState :=
  Editor.insertText "abc" empty_document.

(** The palette opened and filtered with a query that matches nothing. *)
Definition no_match_state : Editor.EditorState :=
  Editor.filterCommands "zzz" (Editor.openCommandPalette ab_at_0_1).

(** The palette opened on the full command list. *)
Definition palette_open_state : Editor.EditorState :=
  Editor.openCommandPalette ab_at_0_1.

(** A modified document bound to the path ["notes.md"]. *)
Definition notes_dirty : Editor.EditorState := {|
  Editor.lines := [Some "a"; Some "b"];
  Editor.cursorLine := 0;
  Editor.cursorColumn := 1;
  Editor.scrollOffset := 0;
  Editor.isDirty := true;
  Editor.filePath := Some "notes.md";
  Editor.theme := "default";
  Editor.isCommandPaletteOpen := false;
  Editor.commandInput := "";
  Editor.filteredCommands := [];
  Editor.selectedCommandIndex := 0
|}.

(** The file ["notes.md"] as the constructor opens it. *)
Definition notes_opened : Editor.EditorState := {|
  Editor.lines := [Some "a"; Some "b"];
  Editor.cursorLine := 0;
  Editor.cursorColumn := 0;
  Editor.scrollOffset := 0;
  Editor.isDirty := false;
  Editor.filePath := Some "notes.md";
  Editor.theme := "default";
  Editor.isCommandPaletteOpen := false;
  Editor.commandInput := "";
  Editor.filteredCommands := [];
  Editor.selectedCommandIndex := 0
|}.

(** The same document with unsaved changes and no path. *)
Definition unbound_dirty : Editor.EditorState :=
  Editor.insertText "abc" ab_at_0_1.

(** A file system holding one file. *)
Definition disk : list (string * string) := [("notes.md", "a" +:+ String JS.LF "b")].

End Fixture.

(** ** Sessions, buffer predicates and the palette's command line *)

Module Session.

Section WithCollaborators.

Context {core : EditorCore.CommandCore} {fsys : Fs.FileSystem}.

(** A sequence of calls on one editor, in program order. *)
Definition run (ops : list Editor.operation) (fs : Fs.FS)
    (st : Editor.EditorState) : Editor.EditorState * Fs.FS :=
  fold_left (fun acc op => Editor.step op acc.2 acc.1) ops (st, fs).

(** The string [executeSelectedCommand] hands to the parser for a selected
    command:
    [`/${command.name} ${this.state.commandInput.replace(command.name, '').trim()}`]. *)
Definition fullInput (command : EditorCore.SlashCommand)
    (st : Editor.EditorState) : string :=
  "/" +:+ EditorCore.name command +:+ " "
  +:+ JS.trim
        (JS.remove_first (EditorCore.name command) (Editor.commandInput st)).

(** No line of the buffer holds a line feed. *)
Definition no_line_feed (ls : list (option string)) : Prop :=
  forall i l, ls !! i = Some (Some l) -> JS.occurrences JS.LF l = 0.

(** A slot is clean when it is a hole or a string without line feed. *)
Definition clean_slot (slot : option string) : Prop :=
  forall l, slot = Some l -> JS.occurrences JS.LF l = 0.

(** Every slot of the buffer is a string: no holes. *)
Definition dense (ls : list (option string)) : Prop :=
  forall i slot, ls !! i = Some slot -> is_Some slot.

(** The linear offset [createCommandContext] computes when every line
    above the cursor is present: each such line counts its length and one
    line feed, then the column. *)
Definition linear_offset (ls : list (option string)) (cl cc : nat) : nat :=
  sum_list_with (fun slot => JS.length (JS.or_empty slot) + 1) (take cl ls)
  + cc.

(** The text of the document up to the cursor, and from the cursor on. *)
Definition before_cursor (st : Editor.EditorState) : string :=
  JS.join (String JS.LF "")
    (take (Editor.cursorLine st) (Editor.lines st)
     ++ [Some (JS.str_take (Editor.cursorColumn st)
                 (JS.or_empty
                    (JS.get (Editor.lines st) (Editor.cursorLine st))))]).

Definition after_cursor (st : Editor.EditorState) : string :=
  JS.join (String JS.LF "")
    (Some (JS.str_drop (Editor.cursorColumn st)
             (JS.or_empty (JS.get (Editor.lines st) (Editor.cursorLine st))))
     :: drop (S (Editor.cursorLine st)) (Editor.lines st)).

(** The loop of [createCommandContext] over the lines above line [n]. *)
Definition offset_loop (ls : list (option string)) (n : nat) : JS.result nat :=
  fold_left
    (fun acc i =>
       offset ← acc;
       match JS.get ls i with
       | Some l => JS.Ok (offset + (JS.length l + 1))
       | None => JS.Throw JS.TypeError
       end)
    (seq 0 n) (JS.Ok 0).

End WithCollaborators.

End Session.

(** ** The command line, [bin/edit] *)

Module Cli.

(** [args.includes(x)] *)
Definition includes (x : string) (args : list string) : bool :=
  existsb (String.eqb x) args.

(** [arg.startsWith(p)] *)
Definition startsWith (p arg : string) : bool := String.prefix p arg.

(** [args.find(pred)]: the first element that satisfies [pred], or
    [undefined]. *)
Definition find (pred : string -> bool) (args : list string) : option string :=
  List.find pred args.

(** What the script does with its arguments: print and [process.exit(0)],
    or construct the editor on the options and start it. *)
Inductive action : Type :=
| PrintHelp
| PrintVersion
| StartEditor (options : Editor.EditorOptions).

Definition main (args : list string) : action :=
  (* Help *)
  if includes "--help" args || includes "-h" args then PrintHelp
  (* Version *)
  else if includes "--version" args || includes "-v" args then PrintVersion
  else
    (* Get file path (first non-flag argument) *)
    let filePath := find (fun arg => negb (startsWith "-" arg)) args in
    (* Create and start editor *)
    StartEditor {| Editor.opt_filePath := filePath;
                   Editor.opt_content := None;
                   Editor.opt_theme := None |}.

(** The interrupt handlers.  [process.on('SIGINT', h)] installs [h] for
    good; inside it, [process.once('SIGINT', h2)] adds a listener that is
    removed when it fires.  An interrupt calls the listeners that were
    installed when it arrived, in the order of installation, and
    [process.exit] ends the process at once.  [armed] counts the pending
    [once] listeners. *)
Inductive interrupt_result : Type :=
| Exited (output : list string) (code : nat)
| Running (output : list string) (armed : nat).

Definition unsaved_warning : string :=
  String JS.LF "Unsaved changes. Press Ctrl+C again to exit without saving.".

Definition exiting_without_saving : string :=
  String JS.LF "Exiting without saving.".

Definition exiting : string := String JS.LF "Exiting.".

(** One interrupt; [dirty] is what [editor.isDirty()] answers when it
    arrives. *)
Definition sigint (dirty : bool) (armed : nat) : interrupt_result :=
  if dirty then
    match armed with
    | 0 => Running [unsaved_warning] 1
    | S _ => Exited [unsaved_warning; exiting_without_saving] 0
    end
  else Exited [exiting] 0.

(** Two interrupts in a row on a freshly started process. *)
Definition two_interrupts (dirty1 dirty2 : bool) : interrupt_result :=
  match sigint dirty1 0 with
  | Exited output code => Exited output code
  | Running output armed =>
      match sigint dirty2 armed with
      | Exited output' code => Exited (output ++ output') code
      | Running output' armed' => Running (output ++ output') armed'
      end
  end.

End Cli.

(** ** More worked states *)

Module Scenario.

(** The text ["X\nY\nZ"]. *)
Definition X_nl_Y_nl_Z : string :=
  "X" +:+ String JS.LF ("Y" +:+ String JS.LF "Z").

(** Three lines typed into an empty document, then the content replaced
    by the empty string: the cursor is left at line 2, column 1, below the
    only line. *)
Definition shrunk_under_cursor : Editor.EditorState :=
  Editor.setContent ""
    (Editor.insertText X_nl_Y_nl_Z Fixture.empty_document).

(** The palette filtered with the partial query ["h"], the first match
    selected. *)
Definition filtered_h : Editor.EditorState :=
  Editor.filterCommands "h" (Editor.openCommandPalette Fixture.ab_at_0_1).

(** The palette input holding a command name followed by arguments. *)
Definition typed_h1_title : Editor.EditorState :=
  Editor.filterCommands "h1 Title  "
    (Editor.openCommandPalette Fixture.ab_at_0_1).

(** The palette opened while the cursor line lies below the end of the
    buffer: the first command is selected and line 1, above the cursor, is
    missing. *)
Definition palette_open_on_shrunk : Editor.EditorState :=
  Editor.openCommandPalette shrunk_under_cursor.

(** A collaborator like [Fixture.core] whose executor rejects every
    request. *)
Definition rejecting_core : EditorCore.CommandCore := {|
  EditorCore.SlashCommand := string;
  EditorCore.name := fun c => c;
  EditorCore.CommandArgs := unit;
  EditorCore.parseCommandInput := fun input =>
    match input with
    | String "/" rest => Some (rest, tt)
    | _ => None
    end;
  EditorCore.executeCommand := fun _ _ _ => JS.Throw JS.CommandError;
  EditorCore.getAllCommands := ["h1"; "hr"];
  EditorCore.searchCommands := fun query =>
    filter (fun c => String.prefix query c = true) ["h1"; "hr"]
|}.

(** The document ["a\nb"], cursor at line 0, column 1, with the palette
    open on the commands of [rejecting_core]. *)
Definition palette_open_rejecting
  : Editor.EditorState (core := rejecting_core) :=
  Editor.openCommandPalette {|
    Editor.lines := [Some "a"; Some "b"];
    Editor.cursorLine := 0;
    Editor.cursorColumn := 1;
    Editor.scrollOffset := 0;
    Editor.isDirty := false;
    Editor.filePath := None;
    Editor.theme := "default";
    Editor.isCommandPaletteOpen := false;
    Editor.commandInput := "";
    Editor.filteredCommands := [];
    Editor.selectedCommandIndex := 0
  |}.

(** A call made on the editor while a command is awaited. *)
Definition typing_zz
  : Editor.EditorState (core := Fixture.core)
    -> Editor.EditorState (core := Fixture.core) :=
  Editor.insertText "zz".

(** A session that types three lines, replaces the content by the empty
    string and types again below the end of the buffer. *)
Definition shrinking_session : list Editor.operation :=
  [Editor.InsertText X_nl_Y_nl_Z; Editor.SetContent ""; Editor.InsertText "q";
   Editor.OpenCommandPalette; Editor.ExecuteSelectedCommand; Editor.Save].

(** A session without [setContent]. *)
Definition typing_session : list Editor.operation :=
  [Editor.InsertText X_nl_Y_nl_Z; Editor.OpenCommandPalette;
   Editor.FilterCommands "h"; Editor.ExecuteSelectedCommand; Editor.Save;
   Editor.InsertText ""].

(** [edit --verbose notes.md other.md] *)
Definition verbose_notes_other : list string :=
  ["--verbose"; "notes.md"; "other.md"].

(** The file system after the document of [Fixture.notes_dirty] was
    saved. *)
Definition disk_after_save : list (string * string) :=
  ("notes.md", "a" +:+ String JS.LF "b") :: Fixture.disk.

End Scenario.

(** ** Facts about the built-ins *)

Section BuiltinFacts.

Lemma app_String c (a b : string) : String c a +:+ b = String c (a +:+ b).
Proof. reflexivity. Qed.

Lemma app_empty_l (b : string) : "" +:+ b = b.
Proof. reflexivity. Qed.

Lemma app_empty_r (a : string) : a +:+ "" = a.
Proof.
  induction a as [|c a IH]; [reflexivity|].
  rewrite app_String. now rewrite IH.
Qed.

Lemma length_app_str (a b : string) :
  JS.length (a +:+ b) = JS.length a + JS.length b.
Proof.
  unfold JS.length. induction a as [|c a IH]; [reflexivity|].
  rewrite app_String. cbn [String.length]. now rewrite IH.
Qed.

Lemma str_take_drop (n : nat) (s : string) :
  JS.str_take n s +:+ JS.str_drop n s = s.
Proof.
  revert s. induction n as [|n IH]; intros [|c s]; try reflexivity.
  cbn [JS.str_take JS.str_drop]. rewrite app_String. now rewrite IH.
Qed.

Lemma length_str_take (n : nat) (s : string) :
  n <= JS.length s -> JS.length (JS.str_take n s) = n.
Proof.
  unfold JS.length. revert s.
  induction n as [|n IH]; intros [|c s] Hn; cbn in *; try lia.
  rewrite IH; lia.
Qed.

Lemma slice_0 (s : string) (e : nat) : JS.slice s 0 e = JS.str_take e s.
Proof. unfold JS.slice. now rewrite Nat.sub_0_r. Qed.

(** Cutting a line at a column and gluing the halves gives the line back. *)
Lemma slice_glue (s : string) (c : nat) :
  JS.slice s 0 c +:+ JS.slice_from s c = s.
Proof. rewrite slice_0. apply str_take_drop. Qed.

Lemma split_not_nil (sep : ascii) (s : string) : JS.split sep s <> [].
Proof.
  induction s as [|c s IH]; cbn; [discriminate|].
  destruct (Ascii.eqb c sep); [discriminate|].
  destruct (JS.split sep s); discriminate.
Qed.

(** [n] separators give [n + 1] pieces. *)
Lemma length_split (sep : ascii) (s : string) :
  length (JS.split sep s) = S (JS.occurrences sep s).
Proof.
  induction s as [|c s IH]; cbn; [reflexivity|].
  destruct (Ascii.eqb c sep); cbn; [now rewrite IH|].
  destruct (JS.split sep s) as [|p ps] eqn:E; cbn in *; [discriminate|].
  exact IH.
Qed.

(** A text without separator is its own single piece. *)
Lemma split_single (sep : ascii) (s : string) :
  JS.occurrences sep s = 0 -> JS.split sep s = [s].
Proof.
  induction s as [|c s IH]; cbn; [reflexivity|].
  destruct (Ascii.eqb c sep); cbn; [discriminate|].
  intros H. now rewrite (IH H).
Qed.

Lemma join_cons_cons sep (x y : option string) (rest : list (option string)) :
  JS.join sep (x :: y :: rest)
  = JS.or_empty x +:+ sep +:+ JS.join sep (y :: rest).
Proof. reflexivity. Qed.

(** Joining the pieces of a split with the separator gives the text back. *)
Lemma join_split (sep : ascii) (s : string) :
  JS.join (String sep "") (Some <$> JS.split sep s) = s.
Proof.
  induction s as [|c s IH]; [reflexivity|].
  cbn [JS.split]. destruct (Ascii.eqb_spec c sep) as [->|Hne].
  - pose proof (split_not_nil sep s) as Hnil.
    destruct (JS.split sep s) as [|p ps]; [congruence|].
    rewrite !fmap_cons, join_cons_cons. rewrite <- fmap_cons, IH.
    reflexivity.
  - pose proof (split_not_nil sep s) as Hnil.
    destruct (JS.split sep s) as [|p ps]; [congruence|].
    destruct ps as [|q ps].
    + cbn in *. now rewrite IH.
    + rewrite !fmap_cons, join_cons_cons in *.
      cbn [JS.or_empty] in *. rewrite app_String. now rewrite IH.
Qed.

End BuiltinFacts.

(** ** Arrays: element assignment and [splice] *)

Section ArrayFacts.

Context {A : Type}.
Implicit Types (arr : list (option A)) (v : A) (i j k : nat).

Lemma length_set_in_range arr i v :
  i < length arr -> length (JS.set arr i v) = length arr.
Proof.
  intros Hi. unfold JS.set. case_decide; [|lia]. apply length_insert.
Qed.

(** Out of range the array grows up to the index written. *)
Lemma length_set_out_of_range arr i v :
  length arr <= i -> length (JS.set arr i v) = S i.
Proof.
  intros Hi. unfold JS.set. case_decide; [lia|].
  rewrite !length_app, length_replicate. cbn. lia.
Qed.

Lemma lookup_set_eq arr i v : JS.set arr i v !! i = Some (Some v).
Proof.
  unfold JS.set. case_decide as Hi.
  - now apply list_lookup_insert_eq.
  - rewrite lookup_app_r by lia.
    rewrite lookup_app_r by (rewrite length_replicate; lia).
    rewrite length_replicate. now replace (i - length arr - _) with 0 by lia.
Qed.

Lemma lookup_set_ne arr i j v :
  i < length arr -> j <> i -> JS.set arr i v !! j = arr !! j.
Proof.
  intros Hi Hne. unfold JS.set. case_decide; [|lia].
  now apply list_lookup_insert_ne.
Qed.

Lemma get_lookup arr i v : arr !! i = Some (Some v) -> JS.get arr i = Some v.
Proof. unfold JS.get. now intros ->. Qed.

Lemma length_splice_insert arr k v :
  length (JS.splice_insert arr k v) = S (length arr).
Proof.
  unfold JS.splice_insert. rewrite length_app. cbn.
  rewrite length_take, length_drop. lia.
Qed.

Lemma lookup_splice_insert_at arr k v :
  k <= length arr -> JS.splice_insert arr k v !! k = Some (Some v).
Proof.
  intros Hk. unfold JS.splice_insert.
  rewrite lookup_app_r by (rewrite length_take; lia).
  rewrite length_take. now replace (k - _) with 0 by lia.
Qed.

Lemma lookup_splice_insert_lt arr k j v :
  j < k -> k <= length arr -> JS.splice_insert arr k v !! j = arr !! j.
Proof.
  intros Hj Hk. unfold JS.splice_insert.
  rewrite lookup_app_l by (rewrite length_take; lia).
  now apply lookup_take_lt.
Qed.

End ArrayFacts.

(** ** The editor operations, field by field *)

Section EditorFacts.

Context {core : EditorCore.CommandCore} {fsys : Fs.FileSystem}.
Implicit Types (st : Editor.EditorState) (text : string).

Import Editor.

Lemma set_lines_id st : set_lines (lines st) st = st.
Proof. now destruct st. Qed.

Lemma set_lines_twice (a b : list (option string)) st :
  set_lines a (set_lines b st) = set_lines a st.
Proof. reflexivity. Qed.

(** The loop over the middle pieces adds one line per iteration and
    touches nothing but the lines. *)
Lemma middle_lines_fold (pieces : list string) (cl : nat) (idx : list nat) st :
  let st' :=
    fold_left
      (fun acc i =>
         set_lines (JS.splice_insert (lines acc) (cl + i) (piece pieces i)) acc)
      idx st in
  length (lines st') = length (lines st) + length idx
  /\ st' = set_lines (lines st') st.
Proof.
  revert st. induction idx as [|i idx IH]; intros st; cbn.
  - split; [lia|]. now rewrite set_lines_id.
  - destruct (IH (set_lines (JS.splice_insert (lines st) (cl + i)
                               (piece pieces i)) st)) as [Hlen Heq].
    split.
    + rewrite Hlen. cbn [lines set_lines]. rewrite length_splice_insert. lia.
    + rewrite Heq at 1. apply set_lines_twice.
Qed.

Lemma middle_lines_range (pieces : list string) (cl hi : nat) st :
  let st' :=
    for_range 1 hi
      (fun i st =>
         set_lines (JS.splice_insert (lines st) (cl + i) (piece pieces i)) st)
      st in
  length (lines st') = length (lines st) + (hi - 1)
  /\ st' = set_lines (lines st') st.
Proof.
  unfold for_range.
  destruct (middle_lines_fold pieces cl (seq 1 (hi - 1)) st) as [Hlen Heq].
  rewrite length_seq in Hlen. auto.
Qed.

(** [insertText] always raises the dirty flag. *)
Lemma insertText_dirty text st : isDirty (insertText text st) = true.
Proof. reflexivity. Qed.

(** [insertText] on a text without line feed. *)
Lemma insertText_single text st :
  JS.occurrences JS.LF text = 0 ->
  insertText text st
  = set_isDirty true
      (set_cursorColumn (cursorColumn st + JS.length text)
         (set_lines
            (JS.set (lines st) (cursorLine st)
               (JS.slice (JS.or_empty (JS.get (lines st) (cursorLine st)))
                  0 (cursorColumn st)
                +:+ text
                +:+ JS.slice_from
                      (JS.or_empty (JS.get (lines st) (cursorLine st)))
                      (cursorColumn st)))
            st)).
Proof.
  intros H0. unfold insertText.
  rewrite length_split, H0. case_decide; [reflexivity|congruence].
Qed.

(** [insertText] on a text with a line feed, at a cursor line inside the
    buffer: the shape of the result. *)
Lemma insertText_multi text st :
  cursorLine st < length (lines st) ->
  1 <= JS.occurrences JS.LF text ->
  let n := length (JS.split JS.LF text) in
  let last := piece (JS.split JS.LF text) (n - 1) in
  let st' := insertText text st in
  length (lines st') = length (lines st) + JS.occurrences JS.LF text
  /\ cursorLine st' = cursorLine st + n - 1
  /\ cursorColumn st' = JS.length last
  /\ lines st' !! cursorLine st'
     = Some (Some (last +:+ JS.slice_from
                     (JS.or_empty (JS.get (lines st) (cursorLine st)))
                     (cursorColumn st))).
Proof.
  intros Hcl Hk n last st'. subst st'. unfold insertText.
  fold n. fold last.
  assert (Hn : n = S (JS.occurrences JS.LF text)) by apply length_split.
  case_decide as Hone; [lia|].
  set (st1 := set_lines _ st).
  destruct (middle_lines_range (JS.split JS.LF text) (cursorLine st) (n - 1) st1)
    as [Hlen Heq].
  set (st2 := for_range 1 (n - 1) _ st1) in *.
  assert (Hlen1 : length (lines st1) = length (lines st)).
  { subst st1. cbn [lines set_lines]. now apply length_set_in_range. }
  cbn [lines cursorLine cursorColumn set_isDirty set_cursorColumn
       set_cursorLine set_lines].
  repeat split.
  - rewrite length_splice_insert. lia.
  - apply lookup_splice_insert_at. lia.
Qed.

(** Inserting right after a block [mid] that follows [pre] extends the
    block at its end. *)
Lemma splice_insert_after_block {A : Type} (pre mid post : list (option A))
    (k : nat) (x : A) :
  k = length pre + length mid ->
  JS.splice_insert (pre ++ mid ++ post) k x = pre ++ (mid ++ [Some x]) ++ post.
Proof.
  intros ->. unfold JS.splice_insert.
  rewrite (app_assoc pre mid post).
  rewrite take_app_length', drop_app_length' by (rewrite length_app; lia).
  now rewrite <- !app_assoc.
Qed.

(** The lines built by the loop over the middle pieces: the pieces
    [j + 1 .. j + m] are appended, in order, to the block that follows the
    first line. *)
Lemma middle_lines_content (pieces : list string) (cl : nat)
    (pre post : list (option string)) (m : nat) :
  length pre = S cl ->
  forall (j : nat) (mid : list (option string)) st,
    length mid = j ->
    S j + m <= length pieces ->
    lines st = pre ++ mid ++ post ->
    lines
      (fold_left
         (fun acc i =>
            set_lines (JS.splice_insert (lines acc) (cl + i) (piece pieces i))
              acc)
         (seq (S j) m) st)
    = pre ++ (mid ++ (Some <$> take m (drop (S j) pieces))) ++ post.
Proof.
  intros Hpre. induction m as [|m IH]; intros j mid st Hmid Hlen Hlines.
  - cbn. now rewrite app_nil_r.
  - cbn [seq fold_left].
    destruct (lookup_lt_is_Some_2 pieces (S j)) as [p Hp]; [lia|].
    rewrite (IH (S j) (mid ++ [Some p])).
    + rewrite (drop_S _ _ _ Hp). cbn [take fmap list_fmap].
      now rewrite <- !app_assoc.
    + rewrite length_app. cbn. lia.
    + lia.
    + cbn [lines set_lines]. rewrite Hlines. unfold piece. rewrite Hp.
      cbn [default]. apply splice_insert_after_block. lia.
Qed.

(** [insertText] on a text with a line feed, at a cursor line inside the
    buffer: the lines before the cursor line, then the text before the
    cursor with the first piece, the middle pieces in order, the last piece
    with the text after the cursor, then the lines that followed. *)
Lemma insertText_multi_lines text st :
  cursorLine st < length (lines st) ->
  1 <= JS.occurrences JS.LF text ->
  let pieces := JS.split JS.LF text in
  let n := length pieces in
  let currentLine := JS.or_empty (JS.get (lines st) (cursorLine st)) in
  lines (insertText text st)
  = take (cursorLine st) (lines st)
    ++ [Some (JS.slice currentLine 0 (cursorColumn st) +:+ piece pieces 0)]
    ++ (Some <$> take (n - 2) (drop 1 pieces))
    ++ [Some (piece pieces (n - 1)
              +:+ JS.slice_from currentLine (cursorColumn st))]
    ++ drop (S (cursorLine st)) (lines st).
Proof.
  intros Hcl Hk pieces n currentLine. unfold insertText.
  fold pieces. fold n. fold currentLine.
  assert (Hn : n = S (JS.occurrences JS.LF text)) by apply length_split.
  case_decide as Hone; [lia|].
  cbn [lines set_isDirty set_cursorColumn set_cursorLine].
  set (first := JS.slice currentLine 0 (cursorColumn st) +:+ piece pieces 0).
  set (st1 := set_lines (JS.set (lines st) (cursorLine st) first) st).
  assert (Hst1 : lines st1
                 = (take (cursorLine st) (lines st) ++ [Some first])
                   ++ [] ++ drop (S (cursorLine st)) (lines st)).
  { subst st1. cbn [lines set_lines app]. unfold JS.set.
    case_decide; [|lia]. rewrite <- app_assoc. cbn [app].
    now apply insert_take_drop. }
  unfold for_range. replace (n - 1 - 1) with (n - 2) by lia.
  cbn [set_lines lines].
  assert (Hpre : length (take (cursorLine st) (lines st) ++ [Some first])
                 = S (cursorLine st)).
  { rewrite length_app, length_take. cbn [length]. lia. }
  assert (Hfit : 1 + (n - 2) <= length pieces) by (fold n; lia).
  rewrite (middle_lines_content pieces (cursorLine st) _ _ (n - 2) Hpre
             0 [] st1 eq_refl Hfit Hst1).
  cbn [app].
  rewrite splice_insert_after_block.
  - now rewrite <- !app_assoc.
  - rewrite !length_app, length_take, length_fmap, length_take, length_drop.
    cbn [length]. fold n. lia.
Qed.

End EditorFacts.

(** ** Properties of the editor *)

Section EditorProperties.

Context {core : EditorCore.CommandCore} {fsys : Fs.FileSystem}.
Implicit Types (st : Editor.EditorState) (text : string).

Import Editor.

(** C1 (as the code has it).  In the document ["a\nb"] with the cursor at
    line 0, column 1, [insertText("X\nY")] yields the lines
    ["aX"], ["Y"], ["b"] and leaves the cursor at line 1, column 1: the
    cursor stood at the end of ["a"], so nothing follows the inserted
    ["Y"] on its line and the old second line stays a line of its own. *)
Theorem insertText_scenario_a_b st :
  lines st = [Some "a"; Some "b"] ->
  cursorLine st = 0 ->
  cursorColumn st = 1 ->
  lines (insertText Fixture.X_nl_Y st) = [Some "aX"; Some "Y"; Some "b"]
  /\ getCursor (insertText Fixture.X_nl_Y st) = (1, 1).
Proof.
  destruct st; cbn [lines cursorLine cursorColumn]; intros -> -> ->.
  split; reflexivity.
Qed.

(** C3.  When the selected index is out of range of the filtered command
    list, [executeSelectedCommand] returns without throwing and leaves the
    whole state as it was; in particular the lines, the cursor and the dirty
    flag are unchanged.  The call settles before any [await], so nothing
    can run in between. *)
Theorem executeSelectedCommand_out_of_range_noop
    (during : EditorState -> EditorState) st :
  length (filteredCommands st) <= selectedCommandIndex st ->
  executeSelectedCommand during st = Returned st.
Proof.
  intros Hrange. unfold executeSelectedCommand, executeSelectedCommand_start.
  now rewrite (lookup_ge_None_2 _ _ Hrange).
Qed.

Lemma closeCommandPalette_closed st : palette_closed (closeCommandPalette st).
Proof. repeat split. Qed.

(** C2 (as the code has it).  [executeSelectedCommand] closes the palette
    exactly on the paths that reach [closeCommandPalette()].
    - With no command selected it returns at once and the state, the
      palette included, is as it was.
    - With a command selected, the palette is closed whenever the call
      returns: at once when the command line does not parse, and after the
      [await] when this call's context was built and this call's executor
      answered with a result, whatever other calls did to the state
      meanwhile.
    - When building this call's context throws, or this call's executor
      rejects, the call throws and does nothing to the state: the palette
      is left as it was. *)
Theorem executeSelectedCommand_closes_palette
    (during : EditorState -> EditorState) st :
  (filteredCommands st !! selectedCommandIndex st = None ->
   executeSelectedCommand during st = Returned st)
  /\ (forall command,
        filteredCommands st !! selectedCommandIndex st = Some command ->
        (forall st', executeSelectedCommand during st = Returned st' ->
                     palette_closed st')
        /\ (EditorCore.parseCommandInput (Session.fullInput command st) = None ->
            executeSelectedCommand during st
            = Returned (closeCommandPalette st))
        /\ (forall parsed_name parsed_args,
              EditorCore.parseCommandInput (Session.fullInput command st)
              = Some (parsed_name, parsed_args) ->
              (forall context result,
                  createCommandContext st = JS.Ok context ->
                  EditorCore.executeCommand parsed_name parsed_args context
                  = JS.Ok result ->
                  executeSelectedCommand during st
                  = Returned
                      (closeCommandPalette (insertText result (during st))))
              /\ (forall e,
                    createCommandContext st = JS.Throw e ->
                    executeSelectedCommand during st = Threw e st)
              /\ (forall context e,
                    createCommandContext st = JS.Ok context ->
                    EditorCore.executeCommand parsed_name parsed_args context
                    = JS.Throw e ->
                    executeSelectedCommand during st = Threw e (during st)))).
Proof.
  unfold executeSelectedCommand, executeSelectedCommand_start,
    executeSelectedCommand_resume, Session.fullInput.
  split; [now intros ->|].
  intros command ->.
  destruct (EditorCore.parseCommandInput _) as [[n a]|] eqn:Hparse.
  - split; [|split; [discriminate|]].
    + destruct (createCommandContext st) as [context|e0]; [|discriminate].
      destruct (EditorCore.executeCommand n a context) as [r|e1];
        [|discriminate].
      intros st' [= <-]. apply closeCommandPalette_closed.
    + intros parsed_name parsed_args [= <- <-]. split; [|split].
      * now intros context result -> ->.
      * now intros e ->.
      * now intros context e -> ->.
  - split; [|split; [reflexivity|discriminate]].
    intros st' [= <-]. apply closeCommandPalette_closed.
Qed.

(** C7.  [setContent(x)] followed by [getContent()] returns [x], for every
    string [x] and whatever the editor state. *)
Theorem setContent_getContent_roundtrip (x : string) st :
  getContent (setContent x st) = x.
Proof. unfold getContent, setContent. cbn [lines set_isDirty set_lines]. apply join_split. Qed.

(** C8.  With no file path bound ([undefined], or the empty string, which
    the guard treats alike), [save()] returns [false] and changes neither
    the editor state, the dirty flag included, nor the file system. *)
Theorem save_without_path (fs : Fs.FS) st :
  JS.truthy (filePath st) = false ->
  save fs st = (false, st, fs).
Proof. intros Hpath. unfold save. now rewrite Hpath. Qed.

(** C9.  After a [save()] that returned [true] the dirty flag is [false],
    and an [insertText] call sets it back to [true] whatever the text, the
    empty string included, and whatever state it is called on. *)
Theorem save_then_insertText_dirty (fs fs' : Fs.FS) st st' :
  save fs st = (true, st', fs') ->
  isDirty st' = false
  /\ (forall text, isDirty (insertText text st') = true)
  /\ isDirty (insertText "" st') = true
  /\ (forall text st'', isDirty (insertText text st'') = true).
Proof.
  unfold save. intros Hsave.
  destruct (negb (JS.truthy (filePath st))); [discriminate|].
  destruct (Fs.writeFileSync _ _ _) as [fs1 [[]|e]]; [|discriminate].
  injection Hsave as <- <-. repeat split.
Qed.

(** C10.  The constructor either builds a state that is not dirty and has
    the cursor at line 0, column 0, from the file's content as well as from
    the literal content, or it throws because reading the existing file
    threw. *)
Theorem constructor_initial_state (fs : Fs.FS) (options : EditorOptions) :
  match constructor fs options with
  | JS.Ok st => isDirty st = false /\ getCursor st = (0, 0)
  | JS.Throw e =>
      JS.truthy (opt_filePath options) = true
      /\ Fs.existsSync fs (JS.or_empty (opt_filePath options)) = true
      /\ Fs.readFileSync fs (JS.or_empty (opt_filePath options)) = JS.Throw e
  end.
Proof.
  unfold constructor.
  destruct (JS.truthy (opt_filePath options)); cbn [andb].
  - destruct (Fs.existsSync fs _); [|now cbn].
    destruct (Fs.readFileSync fs _); now cbn.
  - now cbn.
Qed.

(** C5.  With a valid cursor, inserting a text that holds exactly [k]
    line feeds, [k >= 1], makes the buffer exactly [k] lines longer. *)
Theorem insertText_line_count st text (k : nat) :
  cursor_valid st ->
  JS.occurrences JS.LF text = k ->
  1 <= k ->
  length (lines (insertText text st)) = length (lines st) + k.
Proof.
  intros (l & Hl & _) <- Hk.
  apply lookup_lt_Some in Hl.
  now destruct (insertText_multi text st Hl Hk) as (Hlen & _).
Qed.

(** C6.  With a valid cursor, inserting a text without line feed replaces
    the cursor's line [l] by [l] with the text spliced in at the column, a
    line longer by exactly the length of the text; the column advances by
    the same amount, the cursor stays on its line, and every other line,
    as well as the number of lines, is unchanged. *)
Theorem insertText_single_line_frame st text :
  cursor_valid st ->
  JS.occurrences JS.LF text = 0 ->
  exists l l',
    lines st !! cursorLine st = Some (Some l)
    /\ lines (insertText text st) !! cursorLine st = Some (Some l')
    /\ l' = JS.slice l 0 (cursorColumn st) +:+ text
             +:+ JS.slice_from l (cursorColumn st)
    /\ JS.length l' = JS.length l + JS.length text
    /\ cursorColumn (insertText text st) = cursorColumn st + JS.length text
    /\ cursorLine (insertText text st) = cursorLine st
    /\ length (lines (insertText text st)) = length (lines st)
    /\ (forall i, i <> cursorLine st ->
          lines (insertText text st) !! i = lines st !! i).
Proof.
  intros (l & Hl & Hcol) H0.
  rewrite (insertText_single text st H0).
  cbn [lines cursorLine cursorColumn set_isDirty set_cursorColumn set_lines].
  rewrite (get_lookup _ _ _ Hl). cbn [JS.or_empty].
  pose proof (lookup_lt_Some _ _ _ Hl) as Hlt.
  eexists l, _. split; [exact Hl|]. split; [apply lookup_set_eq|].
  split; [reflexivity|]. split; [|split; [reflexivity|split; [reflexivity|split]]].
  - rewrite <- (slice_glue l (cursorColumn st)) at 3.
    rewrite !length_app_str. lia.
  - now apply length_set_in_range.
  - intros i Hi. now apply lookup_set_ne.
Qed.

(** [insertText] keeps a valid cursor valid. *)
Lemma insertText_cursor_valid text st :
  cursor_valid st -> cursor_valid (insertText text st).
Proof.
  intros (l & Hl & Hcol).
  pose proof (lookup_lt_Some _ _ _ Hl) as Hlt.
  destruct (Nat.eq_dec (JS.occurrences JS.LF text) 0) as [H0|Hk].
  - rewrite (insertText_single text st H0). unfold cursor_valid.
    cbn [lines cursorLine cursorColumn set_isDirty set_cursorColumn set_lines].
    eexists. split; [apply lookup_set_eq|].
    rewrite (get_lookup _ _ _ Hl). cbn [JS.or_empty].
    rewrite !length_app_str, slice_0, length_str_take by exact Hcol. lia.
  - destruct (insertText_multi text st Hlt) as (_ & _ & Hc & Hlast); [lia|].
    unfold cursor_valid. eexists. split; [exact Hlast|].
    rewrite Hc, length_app_str. lia.
Qed.

Lemma cursor_valid_same_position st st' :
  lines st' = lines st -> cursorLine st' = cursorLine st ->
  cursorColumn st' = cursorColumn st ->
  cursor_valid st -> cursor_valid st'.
Proof. unfold cursor_valid. now intros -> -> ->. Qed.

Lemma executeSelectedCommand_cursor_valid st :
  cursor_valid st ->
  cursor_valid (final_state (executeSelectedCommand (fun st => st) st)).
Proof.
  intros Hv. unfold executeSelectedCommand, executeSelectedCommand_start,
    executeSelectedCommand_resume.
  destruct (_ !! _) as [command|]; [|exact Hv].
  destruct (EditorCore.parseCommandInput _) as [[n a]|]; [|exact Hv].
  destruct (createCommandContext st) as [context|e0]; [|exact Hv].
  destruct (EditorCore.executeCommand n a context) as [r|e1]; [|exact Hv].
  cbn [final_state].
  apply (cursor_valid_same_position (insertText r st)); try reflexivity.
  now apply insertText_cursor_valid.
Qed.

(** C4 (as the code has it).  Every operation other than [setContent]
    keeps a valid cursor valid.  [setContent] replaces the lines and leaves
    the cursor where it was, so the cursor is valid afterwards exactly when
    the new content has a line at the cursor's line that reaches the
    cursor's column. *)
Theorem cursor_valid_preserved (op : operation) (fs : Fs.FS) st :
  cursor_valid st ->
  match op with
  | SetContent content =>
      getCursor (step op fs st).1 = getCursor st
      /\ (cursor_valid (step op fs st).1 <->
          exists l, JS.split JS.LF content !! cursorLine st = Some l
                    /\ cursorColumn st <= JS.length l)
  | _ => cursor_valid (step op fs st).1
  end.
Proof.
  intros Hv. destruct op as [content|text| | | |input| |input]; cbn [step fst].
  - split; [reflexivity|]. unfold cursor_valid, setContent.
    cbn [lines cursorLine cursorColumn set_isDirty set_lines].
    rewrite list_lookup_fmap. split.
    + intros (l & Hl & Hcol).
      destruct (JS.split JS.LF content !! cursorLine st) as [l0|]; [|discriminate].
      injection Hl as ->. eauto.
    + intros (l & Hl & Hcol). rewrite Hl. eauto.
  - now apply insertText_cursor_valid.
  - unfold save. destruct (negb _); [exact Hv|].
    destruct (Fs.writeFileSync _ _ _) as [fs1 [[]|e]]; exact Hv.
  - exact Hv.
  - exact Hv.
  - unfold filterCommands. destruct (JS.truthy _); exact Hv.
  - now apply executeSelectedCommand_cursor_valid.
  - exact Hv.
Qed.

End EditorProperties.

(** ** Worked scenarios *)

(** The cursor invariant on a concrete state: name the cursor's line and
    compare the column with its length. *)
Ltac concrete_cursor_valid :=
  eexists; split; [reflexivity | vm_compute; lia].

Lemma constructor_new_document :
  Editor.constructor (fsys := Fixture.fsys) Fixture.disk Editor.no_options
  = JS.Ok Fixture.empty_document.
Proof. reflexivity. Qed.

Lemma constructor_existing_file :
  Editor.constructor (fsys := Fixture.fsys) Fixture.disk
    {| Editor.opt_filePath := Some "notes.md";
       Editor.opt_content := None;
       Editor.opt_theme := None |}
  = JS.Ok Fixture.notes_opened.
Proof. reflexivity. Qed.

(** The state of the first scenario is reached by typing ["a"] at the
    start of the document ["\nb"]. *)
Lemma ab_at_0_1_reached :
  Editor.insertText "a"
    (Editor.setContent (String JS.LF "b") Fixture.empty_document)
  = Editor.set_isDirty true Fixture.ab_at_0_1.
Proof. reflexivity. Qed.

Lemma insertText_scenario_a_b_witness :
  Editor.lines (Editor.insertText Fixture.X_nl_Y Fixture.ab_at_0_1)
  = [Some "aX"; Some "Y"; Some "b"]
  /\ Editor.getCursor (Editor.insertText Fixture.X_nl_Y Fixture.ab_at_0_1)
     = (1, 1).
Proof. apply (insertText_scenario_a_b Fixture.ab_at_0_1); reflexivity. Defined.

(** C1 as stated fails: the resulting lines are not ["aX"], ["Yb"]. *)
Lemma insertText_scenario_a_b_not_merged :
  ~ (Editor.lines (Editor.insertText Fixture.X_nl_Y Fixture.ab_at_0_1)
     = [Some "aX"; Some "Yb"]
     /\ Editor.getCursor (Editor.insertText Fixture.X_nl_Y Fixture.ab_at_0_1)
        = (1, 1)).
Proof. intros [Hlines _]. vm_compute in Hlines. discriminate. Qed.

(** C2 as stated fails on each path that does not reach
    [closeCommandPalette()]: with the palette open on a query that matches
    no command the call returns and the palette is still open, the query
    still in its input; with a command selected and a line missing above
    the cursor, building the context throws and the palette is still open;
    with a command selected and an executor that rejects, the call throws
    and the palette is still open. *)
Lemma executeSelectedCommand_can_leave_palette_open :
  (Editor.isCommandPaletteOpen Fixture.no_match_state = true
   /\ Editor.filteredCommands Fixture.no_match_state = []
   /\ Editor.executeSelectedCommand (fun st => st) Fixture.no_match_state
      = Editor.Returned Fixture.no_match_state
   /\ ~ Editor.palette_closed
          (Editor.final_state
             (Editor.executeSelectedCommand (fun st => st)
                Fixture.no_match_state)))
  /\ (Editor.filteredCommands Scenario.palette_open_on_shrunk
        !! Editor.selectedCommandIndex Scenario.palette_open_on_shrunk
      = Some "h1"
      /\ Editor.executeSelectedCommand (fun st => st)
           Scenario.palette_open_on_shrunk
         = Editor.Threw JS.TypeError Scenario.palette_open_on_shrunk
      /\ ~ Editor.palette_closed
             (Editor.final_state
                (Editor.executeSelectedCommand (fun st => st)
                   Scenario.palette_open_on_shrunk)))
  /\ (Editor.filteredCommands Scenario.palette_open_rejecting
        !! Editor.selectedCommandIndex Scenario.palette_open_rejecting
      = Some "h1"
      /\ Editor.executeSelectedCommand (fun st => st)
           Scenario.palette_open_rejecting
         = Editor.Threw JS.CommandError Scenario.palette_open_rejecting
      /\ ~ Editor.palette_closed
             (Editor.final_state
                (Editor.executeSelectedCommand (fun st => st)
                   Scenario.palette_open_rejecting))).
Proof.
  split; [|split].
  - split; [reflexivity|]. split; [reflexivity|]. split; [reflexivity|].
    intros [Hopen _]. vm_compute in Hopen. discriminate.
  - split; [reflexivity|]. split; [reflexivity|].
    intros [Hopen _]. vm_compute in Hopen. discriminate.
  - split; [reflexivity|]. split; [reflexivity|].
    intros [Hopen _]. vm_compute in Hopen. discriminate.
Qed.

Lemma executeSelectedCommand_closes_palette_witness :
  Editor.filteredCommands Fixture.palette_open_state
    !! Editor.selectedCommandIndex Fixture.palette_open_state
  = Some "h1"
  /\ EditorCore.parseCommandInput (CommandCore := Fixture.core)
       (Session.fullInput (core := Fixture.core) "h1"
          Fixture.palette_open_state)
     = Some ("h1 ", tt)
  /\ exists st',
       Editor.executeSelectedCommand Scenario.typing_zz
         Fixture.palette_open_state
       = Editor.Returned st'
       /\ Editor.palette_closed st'
       /\ Editor.lines st' = [Some "azz---"; Some "b"].
Proof.
  split; [reflexivity|]. split; [reflexivity|].
  destruct (executeSelectedCommand_closes_palette Scenario.typing_zz
              Fixture.palette_open_state) as (_ & Hselected).
  destruct (Hselected "h1" eq_refl) as (Hclosed & _ & Hparsed).
  destruct (Hparsed "h1 " tt eq_refl) as (Hreturns & _).
  specialize (Hreturns _ "---" eq_refl eq_refl).
  eexists. split; [exact Hreturns|].
  split; [exact (Hclosed _ Hreturns)|reflexivity].
Defined.

Lemma executeSelectedCommand_out_of_range_noop_witness :
  length (Editor.filteredCommands Fixture.no_match_state)
  <= Editor.selectedCommandIndex Fixture.no_match_state
  /\ Editor.executeSelectedCommand Scenario.typing_zz Fixture.no_match_state
     = Editor.Returned Fixture.no_match_state.
Proof.
  split; [vm_compute; lia|].
  apply (executeSelectedCommand_out_of_range_noop Scenario.typing_zz
           Fixture.no_match_state).
  vm_compute; lia.
Defined.

(** C4 as stated fails for [setContent]: after typing ["abc"] the cursor
    is at column 3, and [setContent("")] leaves it there on an empty
    line. *)
Lemma setContent_breaks_cursor_valid :
  Editor.cursor_valid Fixture.abc_typed
  /\ ~ Editor.cursor_valid
         (Editor.step (fsys := Fixture.fsys) (Editor.SetContent "")
            Fixture.disk Fixture.abc_typed).1.
Proof.
  split; [concrete_cursor_valid|].
  intros (l & Hl & Hcol). vm_compute in Hl. injection Hl as <-.
  vm_compute in Hcol. lia.
Qed.

Lemma cursor_valid_preserved_witness :
  Editor.cursor_valid Fixture.ab_at_0_1
  /\ Editor.cursor_valid
       (Editor.step (fsys := Fixture.fsys) (Editor.InsertText Fixture.X_nl_Y)
          Fixture.disk Fixture.ab_at_0_1).1.
Proof.
  split; [concrete_cursor_valid|].
  apply (cursor_valid_preserved (fsys := Fixture.fsys)
           (Editor.InsertText Fixture.X_nl_Y) Fixture.disk Fixture.ab_at_0_1).
  concrete_cursor_valid.
Defined.

Lemma insertText_line_count_witness :
  Editor.cursor_valid Fixture.ab_at_0_1
  /\ JS.occurrences JS.LF Fixture.X_nl_Y = 1
  /\ length (Editor.lines (Editor.insertText Fixture.X_nl_Y Fixture.ab_at_0_1))
     = length (Editor.lines Fixture.ab_at_0_1) + 1.
Proof.
  split; [concrete_cursor_valid|]. split; [reflexivity|].
  apply (insertText_line_count Fixture.ab_at_0_1 Fixture.X_nl_Y 1);
    [concrete_cursor_valid | reflexivity | lia].
Defined.

Lemma insertText_single_line_frame_witness :
  Editor.cursor_valid Fixture.ab_at_0_1
  /\ JS.occurrences JS.LF "abc" = 0
  /\ exists l l',
       Editor.lines Fixture.ab_at_0_1 !! 0 = Some (Some l)
       /\ Editor.lines (Editor.insertText "abc" Fixture.ab_at_0_1) !! 0
          = Some (Some l')
       /\ JS.length l' = JS.length l + 3
       /\ Editor.cursorColumn (Editor.insertText "abc" Fixture.ab_at_0_1) = 4.
Proof.
  split; [concrete_cursor_valid|]. split; [reflexivity|].
  destruct (insertText_single_line_frame Fixture.ab_at_0_1 "abc")
    as (l & l' & Hl & Hl' & _ & Hlen & Hcol & _);
    [concrete_cursor_valid | reflexivity |].
  exists l, l'. repeat split; assumption.
Defined.

Lemma save_without_path_witness :
  Editor.filePath Fixture.unbound_dirty = None
  /\ Editor.isDirty Fixture.unbound_dirty = true
  /\ Editor.save (fsys := Fixture.fsys) Fixture.disk Fixture.unbound_dirty
     = (false, Fixture.unbound_dirty, Fixture.disk).
Proof.
  split; [reflexivity|]. split; [reflexivity|].
  apply (save_without_path (fsys := Fixture.fsys)). reflexivity.
Defined.

Lemma save_then_insertText_dirty_witness :
  Editor.save (fsys := Fixture.fsys) Fixture.disk Fixture.notes_dirty
  = (true, Editor.set_isDirty false Fixture.notes_dirty,
     ("notes.md", "a" +:+ String JS.LF "b") :: Fixture.disk)
  /\ Editor.isDirty (Editor.set_isDirty false Fixture.notes_dirty) = false
  /\ Editor.isDirty
       (Editor.insertText "" (Editor.set_isDirty false Fixture.notes_dirty))
     = true.
Proof.
  split; [reflexivity|].
  destruct (save_then_insertText_dirty (fsys := Fixture.fsys)
              Fixture.disk _ Fixture.notes_dirty _ eq_refl)
    as (Hclean & _ & Hempty & _).
  split; [exact Hclean | exact Hempty].
Defined.

(** ** Joined content and the cursor's linear offset *)

Section ContentFacts.

Implicit Types (sep x y : string) (A B P Q : list (option string)).

Lemma app_str_assoc (a b c : string) : (a +:+ b) +:+ c = a +:+ (b +:+ c).
Proof.
  induction a as [|ch a IH]; [reflexivity|].
  rewrite !app_String. now rewrite IH.
Qed.

Lemma str_take_app_length (a b : string) :
  JS.str_take (JS.length a) (a +:+ b) = a.
Proof.
  unfold JS.length. induction a as [|ch a IH]; cbn.
  - now destruct b.
  - rewrite app_String. cbn. now rewrite IH.
Qed.

Lemma str_drop_app_length (a b : string) :
  JS.str_drop (JS.length a) (a +:+ b) = b.
Proof.
  unfold JS.length. induction a as [|ch a IH]; cbn.
  - now destruct b.
  - rewrite app_String. cbn. exact IH.
Qed.

Lemma join_cons_nonempty sep (a : option string) A :
  A <> [] -> JS.join sep (a :: A) = JS.or_empty a +:+ sep +:+ JS.join sep A.
Proof. destruct A; [congruence|reflexivity]. Qed.

(** Joining across a line that is cut in two: the content is the join of
    what precedes the cut followed by the join of what follows it. *)
Lemma join_seam sep A x y B :
  JS.join sep (A ++ Some (x +:+ y) :: B)
  = JS.join sep (A ++ [Some x]) +:+ JS.join sep (Some y :: B).
Proof.
  induction A as [|a A IH].
  - cbn [app]. destruct B as [|b B].
    + reflexivity.
    + rewrite !join_cons_cons. cbn [JS.join JS.or_empty].
      now rewrite app_str_assoc.
  - cbn [app]. rewrite !join_cons_nonempty by (now destruct A).
    rewrite IH. now rewrite !app_str_assoc.
Qed.

Lemma join_head_app sep x y B :
  JS.join sep (Some (x +:+ y) :: B) = x +:+ JS.join sep (Some y :: B).
Proof. exact (join_seam sep [] x y B). Qed.

Lemma length_join_snoc sep P x :
  JS.length (JS.join sep (P ++ [Some x]))
  = sum_list_with
      (fun slot => JS.length (JS.or_empty slot) + JS.length sep) P
    + JS.length x.
Proof.
  induction P as [|a P IH]; [reflexivity|].
  cbn [app]. rewrite join_cons_nonempty by (now destruct P).
  rewrite !length_app_str, IH. cbn [sum_list_with]. lia.
Qed.

Lemma offset_loop_S (ls : list (option string)) (n : nat) :
  Session.offset_loop ls (S n)
  = (offset ← Session.offset_loop ls n;
     match JS.get ls n with
     | Some l => JS.Ok (offset + (JS.length l + 1))
     | None => JS.Throw JS.TypeError
     end).
Proof.
  unfold Session.offset_loop. now rewrite seq_S, fold_left_app.
Qed.

(** The loop either sums the lines above [n], all present, or meets a
    missing line and throws a [TypeError]. *)
Lemma offset_loop_cases (ls : list (option string)) (n : nat) :
  (Session.offset_loop ls n
   = JS.Ok (sum_list_with
              (fun slot => JS.length (JS.or_empty slot) + 1) (take n ls))
   /\ forall i, i < n -> exists l, ls !! i = Some (Some l))
  \/ (Session.offset_loop ls n = JS.Throw JS.TypeError
      /\ exists i, i < n /\ JS.get ls i = None).
Proof.
  induction n as [|n [[Hok Hall]|[Hthrow (i & Hi & Hnone)]]].
  - left. split; [reflexivity|]. intros i Hi. lia.
  - rewrite offset_loop_S, Hok. cbn [mbind JS.result_bind].
    destruct (JS.get ls n) as [l|] eqn:Hget.
    + left. assert (Hl : ls !! n = Some (Some l)).
      { unfold JS.get in Hget. destruct (ls !! n) as [[l'|]|]; congruence. }
      split.
      * rewrite (take_S_r _ _ _ Hl), sum_list_with_app.
        cbn [sum_list_with JS.or_empty]. f_equal. lia.
      * intros i Hi. destruct (decide (i = n)) as [->|]; [eauto|].
        apply Hall. lia.
    + right. split; [reflexivity|]. exists n. split; [lia|exact Hget].
  - right. rewrite offset_loop_S, Hthrow. split; [reflexivity|].
    exists i. split; [lia|exact Hnone].
Qed.

End ContentFacts.

(** ** The content around the cursor *)

Section CursorInContent.

Context {core : EditorCore.CommandCore}.
Implicit Types (st : Editor.EditorState) (text l : string).

Import Editor.

Lemma createCommandContext_loop st :
  createCommandContext st
  = (offset ← Session.offset_loop (lines st) (cursorLine st);
     JS.Ok {| EditorCore.cursor :=
                {| EditorCore.line := cursorLine st;
                   EditorCore.column := cursorColumn st;
                   EditorCore.offset := offset + cursorColumn st |};
              EditorCore.content := getContent st;
              EditorCore.selection := None;
              EditorCore.metadata := None |}).
Proof. reflexivity. Qed.

(** What [createCommandContext] returns, and when it throws. *)
Lemma createCommandContext_spec st :
  match createCommandContext st with
  | JS.Ok context =>
      (forall i, i < cursorLine st -> exists l, lines st !! i = Some (Some l))
      /\ EditorCore.line (EditorCore.cursor context) = cursorLine st
      /\ EditorCore.column (EditorCore.cursor context) = cursorColumn st
      /\ EditorCore.offset (EditorCore.cursor context)
         = Session.linear_offset (lines st) (cursorLine st) (cursorColumn st)
      /\ EditorCore.content context = getContent st
      /\ EditorCore.selection context = None
      /\ EditorCore.metadata context = None
  | JS.Throw e =>
      e = JS.TypeError
      /\ exists i, i < cursorLine st /\ JS.get (lines st) i = None
  end.
Proof.
  rewrite createCommandContext_loop.
  destruct (offset_loop_cases (lines st) (cursorLine st))
    as [[-> Hall]|[-> Hmiss]]; cbn [mbind JS.result_bind].
  - repeat split; try reflexivity. exact Hall.
  - split; [reflexivity|exact Hmiss].
Qed.

Lemma before_cursor_at st l :
  lines st !! cursorLine st = Some (Some l) ->
  Session.before_cursor st
  = JS.join (String JS.LF "")
      (take (cursorLine st) (lines st)
       ++ [Some (JS.str_take (cursorColumn st) l)]).
Proof.
  intros Hl. unfold Session.before_cursor. now rewrite (get_lookup _ _ _ Hl).
Qed.

Lemma after_cursor_at st l :
  lines st !! cursorLine st = Some (Some l) ->
  Session.after_cursor st
  = JS.join (String JS.LF "")
      (Some (JS.str_drop (cursorColumn st) l)
       :: drop (S (cursorLine st)) (lines st)).
Proof.
  intros Hl. unfold Session.after_cursor. now rewrite (get_lookup _ _ _ Hl).
Qed.

(** The document is what precedes the cursor followed by what follows
    it. *)
Lemma content_cut st l :
  lines st !! cursorLine st = Some (Some l) ->
  getContent st = Session.before_cursor st +:+ Session.after_cursor st.
Proof.
  intros Hl. rewrite (before_cursor_at st l Hl), (after_cursor_at st l Hl).
  unfold getContent.
  rewrite <- join_seam, str_take_drop. now rewrite take_drop_middle.
Qed.

(** The linear offset is the length of what precedes the cursor. *)
Lemma linear_offset_before st l :
  lines st !! cursorLine st = Some (Some l) ->
  cursorColumn st <= JS.length l ->
  Session.linear_offset (lines st) (cursorLine st) (cursorColumn st)
  = JS.length (Session.before_cursor st).
Proof.
  intros Hl Hcol. rewrite (before_cursor_at st l Hl).
  unfold Session.linear_offset.
  rewrite length_join_snoc, length_str_take by exact Hcol. reflexivity.
Qed.

(** A list of at least two pieces: the first, the middle ones, the last. *)
Lemma pieces_ends (pieces : list string) :
  2 <= length pieces ->
  pieces
  = piece pieces 0
    :: take (length pieces - 2) (drop 1 pieces)
    ++ [piece pieces (length pieces - 1)].
Proof.
  destruct pieces as [|p0 rest]; cbn [length]; [lia|]. intros Hlen.
  destruct (lookup_lt_is_Some_2 rest (length rest - 1)) as [x Hx]; [lia|].
  assert (Hlast : (p0 :: rest) !! (S (length rest) - 1) = Some x).
  { replace (S (length rest) - 1) with (S (length rest - 1)) by lia.
    exact Hx. }
  unfold piece. rewrite Hlast.
  change ((p0 :: rest) !! 0) with (Some p0).
  change (drop 1 (p0 :: rest)) with rest. cbn [default]. f_equal.
  replace (S (length rest) - 2) with (length rest - 1) by lia.
  rewrite <- (take_drop (length rest - 1) rest) at 1.
  f_equal. rewrite (drop_S _ _ _ Hx).
  now rewrite drop_ge by lia.
Qed.

(** The lines after [insertText] at a valid cursor: the lines above, the
    text before the cursor glued to the inserted text's pieces, the last of
    which is glued to the text after the cursor, then the lines below. *)
Lemma insertText_lines_cut text st l :
  lines st !! cursorLine st = Some (Some l) ->
  cursorColumn st <= JS.length l ->
  exists (above : list (option string)) (last : string),
    lines (insertText text st)
    = above
      ++ Some (last +:+ JS.str_drop (cursorColumn st) l)
         :: drop (S (cursorLine st)) (lines st)
    /\ JS.join (String JS.LF "") (above ++ [Some last])
       = Session.before_cursor st +:+ text
    /\ (forall i, i < length above ->
         (exists l', above !! i = Some (Some l'))
         \/ (i < cursorLine st /\ above !! i = lines st !! i))
    /\ cursorLine (insertText text st) = length above
    /\ cursorColumn (insertText text st) = JS.length last.
Proof.
  intros Hl Hcol. pose proof (lookup_lt_Some _ _ _ Hl) as Hlt.
  assert (Hpre : length (take (cursorLine st) (lines st)) = cursorLine st)
    by (rewrite length_take; lia).
  rewrite (before_cursor_at st l Hl).
  destruct (Nat.eq_dec (JS.occurrences JS.LF text) 0) as [H0|Hk].
  - exists (take (cursorLine st) (lines st)),
      (JS.str_take (cursorColumn st) l +:+ text).
    rewrite (insertText_single text st H0).
    cbn [lines cursorLine cursorColumn set_isDirty set_cursorColumn set_lines].
    rewrite (get_lookup _ _ _ Hl). cbn [JS.or_empty].
    split; [|split; [|split; [|split]]].
    + unfold JS.set. case_decide; [|lia].
      rewrite insert_take_drop by lia. unfold JS.slice_from.
      now rewrite slice_0, app_str_assoc.
    + apply (join_seam _ _ _ _ []).
    + intros i Hi. right. rewrite Hpre in Hi.
      split; [exact Hi|]. now apply lookup_take_lt.
    + now rewrite Hpre.
    + rewrite length_app_str, length_str_take by exact Hcol. reflexivity.
  - assert (Hk1 : 1 <= JS.occurrences JS.LF text) by lia.
    pose proof (length_split JS.LF text) as Hn.
    set (pieces := JS.split JS.LF text) in *.
    exists (take (cursorLine st) (lines st)
            ++ Some (JS.str_take (cursorColumn st) l +:+ piece pieces 0)
               :: (Some <$> take (length pieces - 2) (drop 1 pieces))),
      (piece pieces (length pieces - 1)).
    destruct (insertText_multi text st Hlt Hk1) as (_ & Hcl & Hcc & _).
    fold pieces in Hcl, Hcc.
    split; [|split; [|split; [|split]]].
    + rewrite (insertText_multi_lines text st Hlt Hk1). fold pieces.
      rewrite (get_lookup _ _ _ Hl). cbn [JS.or_empty].
      unfold JS.slice_from. rewrite slice_0.
      rewrite <- !app_assoc. reflexivity.
    + rewrite <- app_assoc. cbn [app].
      rewrite join_seam. f_equal.
      assert (Hp : Some <$> pieces
                   = Some (piece pieces 0)
                     :: (Some <$> take (length pieces - 2) (drop 1 pieces))
                     ++ [Some (piece pieces (length pieces - 1))]).
      { rewrite (pieces_ends pieces) at 1 by lia.
        now rewrite fmap_cons, fmap_app. }
      rewrite <- Hp. apply join_split.
    + intros i Hi. rewrite length_app in Hi.
      destruct (decide (i < cursorLine st)) as [Hlow|Hhigh].
      * right. split; [exact Hlow|].
        rewrite lookup_app_l by lia. now apply lookup_take_lt.
      * rewrite lookup_app_r by lia. rewrite Hpre.
        cbn [length] in Hi. rewrite Hpre in Hi.
        destruct (i - cursorLine st) as [|j] eqn:Hj.
        -- left. eexists. reflexivity.
        -- rewrite length_fmap in Hi.
           destruct (lookup_lt_is_Some_2
                       (take (length pieces - 2) (drop 1 pieces)) j)
             as [x Hx]; [lia|].
           left. exists x. rewrite lookup_cons_ne_0 by lia.
           rewrite list_lookup_fmap. cbn [Nat.pred]. now rewrite Hx.
    + rewrite Hcl, length_app, Hpre. cbn [length].
      rewrite length_fmap, length_take, length_drop. lia.
    + exact Hcc.
Qed.

(** [insertText] puts the text between what preceded the cursor and what
    followed it, and moves the cursor to the end of the inserted text. *)
Lemma insertText_around_cursor text st :
  cursor_valid st ->
  getContent (insertText text st)
  = Session.before_cursor st +:+ text +:+ Session.after_cursor st
  /\ Session.before_cursor (insertText text st)
     = Session.before_cursor st +:+ text
  /\ Session.after_cursor (insertText text st) = Session.after_cursor st.
Proof.
  intros (l & Hl & Hcol).
  destruct (insertText_lines_cut text st l Hl Hcol)
    as (above & last & Hlines & Hjoin & _ & Hcl & Hcc).
  rewrite (after_cursor_at st l Hl).
  assert (Hline : lines (insertText text st) !! length above
                  = Some (Some (last +:+ JS.str_drop (cursorColumn st) l))).
  { rewrite Hlines, lookup_app_r by lia. now rewrite Nat.sub_diag. }
  split; [|split].
  - unfold getContent. rewrite Hlines, join_seam, Hjoin.
    apply app_str_assoc.
  - unfold Session.before_cursor. rewrite Hcl, Hcc, (get_lookup _ _ _ Hline).
    cbn [JS.or_empty]. rewrite str_take_app_length.
    rewrite Hlines, take_app_length. exact Hjoin.
  - unfold Session.after_cursor. rewrite Hcl, Hcc, (get_lookup _ _ _ Hline).
    cbn [JS.or_empty]. rewrite str_drop_app_length.
    rewrite Hlines. rewrite (cons_middle _ above), app_assoc.
    rewrite drop_app_length'; [reflexivity|].
    rewrite length_app. cbn [length]. lia.
Qed.

(** When the context can be built, its offset is the length of what
    precedes the cursor. *)
Lemma context_offset_before st context :
  cursor_valid st ->
  createCommandContext st = JS.Ok context ->
  EditorCore.offset (EditorCore.cursor context)
  = JS.length (Session.before_cursor st)
  /\ EditorCore.content context = getContent st.
Proof.
  intros (l & Hl & Hcol) Hctx.
  pose proof (createCommandContext_spec st) as Hspec. rewrite Hctx in Hspec.
  destruct Hspec as (_ & _ & _ & Hoff & Hcontent & _).
  split; [|exact Hcontent].
  rewrite Hoff. now apply (linear_offset_before st l).
Qed.

(** After [insertText] at a valid cursor under which every line is
    present, the context can still be built. *)
Lemma context_after_insertText text st context :
  cursor_valid st ->
  createCommandContext st = JS.Ok context ->
  exists context', createCommandContext (insertText text st) = JS.Ok context'.
Proof.
  intros (l & Hl & Hcol) Hctx.
  pose proof (createCommandContext_spec st) as Hspec. rewrite Hctx in Hspec.
  destruct Hspec as (Hall & _).
  destruct (insertText_lines_cut text st l Hl Hcol)
    as (above & last & Hlines & _ & Habove & Hcl & _).
  pose proof (createCommandContext_spec (insertText text st)) as Hspec'.
  destruct (createCommandContext (insertText text st)) as [context'|e];
    [eauto|].
  destruct Hspec' as (_ & i & Hi & Hnone). exfalso.
  rewrite Hcl in Hi. unfold JS.get in Hnone.
  rewrite Hlines, lookup_app_l in Hnone by exact Hi.
  destruct (Habove i Hi) as [[l' Hl']|[Hlow Hsame]].
  - rewrite Hl' in Hnone. discriminate.
  - rewrite Hsame in Hnone. destruct (Hall i Hlow) as [l' Hl'].
    rewrite Hl' in Hnone. discriminate.
Qed.

End CursorInContent.

(** ** Further properties: context, offsets and insertion *)

Section ContextProperties.

Context {core : EditorCore.CommandCore}.
Implicit Types (st : Editor.EditorState) (text : string).

Import Editor.

(** X1.  [createCommandContext] throws exactly when a line above the
    cursor line is missing (a hole, or beyond the end of the buffer), and
    then it throws a [TypeError]; otherwise it returns the cursor, the
    joined content and, as offset, the lengths of the lines above the
    cursor, one line feed for each, plus the column. *)
Theorem createCommandContext_missing_line st :
  (createCommandContext st = JS.Throw JS.TypeError
   <-> exists i, i < cursorLine st /\ JS.get (lines st) i = None)
  /\ (forall e, createCommandContext st = JS.Throw e -> e = JS.TypeError)
  /\ (forall context,
        createCommandContext st = JS.Ok context ->
        EditorCore.cursor context
        = {| EditorCore.line := cursorLine st;
             EditorCore.column := cursorColumn st;
             EditorCore.offset :=
               Session.linear_offset (lines st) (cursorLine st)
                 (cursorColumn st) |}
        /\ EditorCore.content context = getContent st).
Proof.
  pose proof (createCommandContext_spec st) as Hspec.
  destruct (createCommandContext st) as [context|e].
  - destruct Hspec as (Hall & Hline & Hcol & Hoff & Hcontent & _).
    split; [split|split].
    + discriminate.
    + intros (i & Hi & Hnone). destruct (Hall i Hi) as [l Hl].
      rewrite (get_lookup _ _ _ Hl) in Hnone. discriminate.
    + discriminate.
    + intros context' [= <-]. split; [|exact Hcontent].
      destruct context as [[]]. cbn in *. now subst.
  - destruct Hspec as (-> & Hmiss).
    split; [split; auto|split]; [congruence|discriminate].
Qed.

(** X2.  At a valid cursor, [insertText] is a string insertion at the
    linear offset that [createCommandContext] reports: the new content is
    the old content up to the offset, the text, and the old content from
    the offset on. *)
Theorem insertText_inserts_at_offset text st context :
  cursor_valid st ->
  createCommandContext st = JS.Ok context ->
  getContent (insertText text st)
  = JS.slice (EditorCore.content context) 0
      (EditorCore.offset (EditorCore.cursor context))
    +:+ text
    +:+ JS.slice_from (EditorCore.content context)
          (EditorCore.offset (EditorCore.cursor context)).
Proof.
  intros Hv Hctx.
  destruct (context_offset_before st context Hv Hctx) as [-> ->].
  destruct (insertText_around_cursor text st Hv) as (-> & _).
  destruct Hv as (l & Hl & _). rewrite (content_cut st l Hl).
  unfold JS.slice_from.
  now rewrite slice_0, str_take_app_length, str_drop_app_length.
Qed.

(** X3.  At a valid cursor whose context can be built, the context can be
    built again after [insertText], and its offset has advanced by exactly
    the length of the inserted text, line feeds included. *)
Theorem insertText_advances_offset text st context :
  cursor_valid st ->
  createCommandContext st = JS.Ok context ->
  exists context',
    createCommandContext (insertText text st) = JS.Ok context'
    /\ EditorCore.offset (EditorCore.cursor context')
       = EditorCore.offset (EditorCore.cursor context) + JS.length text.
Proof.
  intros Hv Hctx.
  destruct (context_after_insertText text st context Hv Hctx)
    as [context' Hctx'].
  exists context'. split; [exact Hctx'|].
  pose proof (insertText_cursor_valid text st Hv) as Hv'.
  destruct (context_offset_before _ _ Hv' Hctx') as [-> _].
  destruct (context_offset_before _ _ Hv Hctx) as [-> _].
  destruct (insertText_around_cursor text st Hv) as (_ & -> & _).
  apply length_app_str.
Qed.

(** X4.  At a valid cursor, inserting [a] and then [b] leaves the same
    content as inserting the concatenation of [a] and [b] at once. *)
Theorem insertText_twice_is_concatenation (a b : string) st :
  cursor_valid st ->
  getContent (insertText b (insertText a st))
  = getContent (insertText (a +:+ b) st).
Proof.
  intros Hv.
  pose proof (insertText_cursor_valid a st Hv) as Hva.
  destruct (insertText_around_cursor b _ Hva) as (-> & _).
  destruct (insertText_around_cursor a st Hv) as (_ & -> & ->).
  destruct (insertText_around_cursor (a +:+ b) st Hv) as (-> & _).
  now rewrite !app_str_assoc.
Qed.


Lemma executeCommand_request_then_executor (input : string) st :
  executeCommand input st
  = (request ← executeCommand_request input st;
     match request with
     | None => JS.Ok None
     | Some (parsed_name, parsed_args, context) =>
         result ← EditorCore.executeCommand parsed_name parsed_args context;
         JS.Ok (Some result)
     end).
Proof.
  unfold executeCommand, executeCommand_request.
  destruct (EditorCore.parseCommandInput input) as [[n a]|]; [|reflexivity].
  now destruct (createCommandContext st).
Qed.


(** X7.  At a valid cursor, inserting the empty string changes nothing but
    the dirty flag: lines, cursor and every other field stay as they
    were. *)
Theorem insertText_empty_only_dirties st :
  cursor_valid st ->
  insertText "" st = set_isDirty true st.
Proof.
  intros (l & Hl & Hcol).
  rewrite (insertText_single "" st eq_refl).
  rewrite (get_lookup _ _ _ Hl). cbn [JS.or_empty].
  rewrite app_empty_l, slice_glue.
  unfold JS.set. case_decide as Hlt.
  - rewrite (list_insert_id _ _ _ Hl). change (JS.length "") with 0.
    rewrite Nat.add_0_r. now destruct st.
  - apply lookup_lt_Some in Hl. lia.
Qed.

(** X8.  When the cursor line lies below the end of the buffer (after
    [setContent] shortened it), inserting a text without line feed does
    not fail: the buffer grows up to the cursor line, holes fill the gap,
    the text becomes the cursor line and the column advances by its
    length. *)
Theorem insertText_below_buffer_pads_with_holes text st :
  length (lines st) <= cursorLine st ->
  JS.occurrences JS.LF text = 0 ->
  lines (insertText text st)
  = lines st ++ replicate (cursorLine st - length (lines st)) None
    ++ [Some text]
  /\ getCursor (insertText text st)
     = (cursorLine st, cursorColumn st + JS.length text).
Proof.
  intros Hout H0. rewrite (insertText_single text st H0).
  cbn [lines getCursor cursorLine cursorColumn set_isDirty set_cursorColumn
       set_lines].
  split; [|reflexivity].
  unfold JS.get. rewrite (lookup_ge_None_2 _ _ Hout). cbn [JS.or_empty].
  unfold JS.set. case_decide; [lia|].
  unfold JS.slice, JS.slice_from.
  replace (JS.str_take _ _) with "" by (now destruct (cursorColumn st - 0)).
  replace (JS.str_drop (cursorColumn st) "") with ""
    by (now destruct (cursorColumn st)).
  now rewrite app_empty_l, app_empty_r.
Qed.

(** X9.  At a valid cursor, inserting a text with [k >= 1] line feeds moves
    the cursor down exactly [k] lines and sets the column to the length of
    the text's last piece, the part after its last line feed. *)
Theorem insertText_cursor_after_line_feeds text st (k : nat) :
  cursor_valid st ->
  JS.occurrences JS.LF text = k ->
  1 <= k ->
  getCursor (insertText text st)
  = (cursorLine st + k, JS.length (piece (JS.split JS.LF text) k)).
Proof.
  intros (l & Hl & _) <- Hk.
  apply lookup_lt_Some in Hl.
  destruct (insertText_multi text st Hl Hk) as (_ & Hcl & Hcc & _).
  unfold getCursor. rewrite Hcl, Hcc, length_split. f_equal; [lia|].
  do 2 f_equal. lia.
Qed.

End ContextProperties.

(** ** Lines without line feed *)

Section LineFeedFacts.

Lemma occurrences_app (c : ascii) (a b : string) :
  JS.occurrences c (a +:+ b) = JS.occurrences c a + JS.occurrences c b.
Proof.
  induction a as [|ch a IH]; [reflexivity|].
  rewrite app_String. cbn [JS.occurrences]. rewrite IH. lia.
Qed.

Lemma occurrences_take_drop (c : ascii) (n : nat) (s : string) :
  JS.occurrences c (JS.str_take n s) + JS.occurrences c (JS.str_drop n s)
  = JS.occurrences c s.
Proof. rewrite <- occurrences_app. now rewrite str_take_drop. Qed.

(** The pieces of a split hold no separator. *)
Lemma split_pieces_clean (sep : ascii) (s : string) :
  Forall (fun p => JS.occurrences sep p = 0) (JS.split sep s).
Proof.
  induction s as [|c s IH]; cbn [JS.split].
  - repeat constructor.
  - destruct (Ascii.eqb c sep) eqn:Hc.
    + constructor; [reflexivity|exact IH].
    + destruct (JS.split sep s) as [|p ps].
      * repeat constructor. cbn. now rewrite Hc.
      * inversion IH as [|? ? Hp Hps]; subst.
        constructor; [|exact Hps]. cbn. now rewrite Hc, Hp.
Qed.

Lemma piece_clean (sep : ascii) (s : string) (i : nat) :
  JS.occurrences sep (Editor.piece (JS.split sep s) i) = 0.
Proof.
  unfold Editor.piece.
  destruct (JS.split sep s !! i) as [p|] eqn:Hp; [|reflexivity].
  cbn [default].
  exact (proj1 (Forall_lookup _ _) (split_pieces_clean sep s) i p Hp).
Qed.

(** A clean piece ends at the next separator. *)
Lemma split_clean_app (sep : ascii) (a b : string) :
  JS.occurrences sep a = 0 ->
  JS.split sep (a +:+ String sep b) = a :: JS.split sep b.
Proof.
  induction a as [|c a IH]; intros Ha.
  - rewrite app_empty_l. cbn [JS.split]. now rewrite Ascii.eqb_refl.
  - rewrite app_String. cbn [JS.split JS.occurrences] in *.
    destruct (Ascii.eqb c sep); [discriminate|].
    now rewrite IH by exact Ha.
Qed.

(** Splitting the join of clean lines gives the lines back. *)
Lemma split_join (sep : ascii) (ls : list string) :
  ls <> [] ->
  Forall (fun l => JS.occurrences sep l = 0) ls ->
  JS.split sep (JS.join (String sep "") (Some <$> ls)) = ls.
Proof.
  induction ls as [|x [|y ls] IH]; intros Hne Hclean; [congruence| |].
  - cbn. apply split_single. now inversion Hclean.
  - rewrite !fmap_cons, join_cons_cons. cbn [JS.or_empty].
    change (String sep "" +:+ ?r) with (String sep r).
    inversion Hclean as [|? ? Hx Hrest]; subst.
    rewrite split_clean_app by exact Hx. f_equal.
    rewrite <- fmap_cons. now apply IH.
Qed.

Lemma no_line_feed_Forall (ls : list (option string)) :
  Session.no_line_feed ls <-> Forall Session.clean_slot ls.
Proof.
  unfold Session.no_line_feed, Session.clean_slot. rewrite Forall_lookup.
  split.
  - intros H i slot Hslot l ->. eauto.
  - intros H i l Hl. exact (H i (Some l) Hl l eq_refl).
Qed.

Lemma clean_slot_hole : Session.clean_slot None.
Proof. intros l. discriminate. Qed.

Lemma clean_slot_Some (l : string) :
  JS.occurrences JS.LF l = 0 -> Session.clean_slot (Some l).
Proof. intros Hl l' [= <-]. exact Hl. Qed.

Lemma set_clean (arr : list (option string)) (i : nat) (v : string) :
  Forall Session.clean_slot arr -> JS.occurrences JS.LF v = 0 ->
  Forall Session.clean_slot (JS.set arr i v).
Proof.
  intros Harr Hv. unfold JS.set. case_decide.
  - apply Forall_insert; [exact Harr|now apply clean_slot_Some].
  - rewrite !Forall_app. split; [exact Harr|]. split.
    + apply Forall_replicate, clean_slot_hole.
    + repeat constructor. now apply clean_slot_Some.
Qed.

Lemma splice_insert_clean (arr : list (option string)) (k : nat) (v : string) :
  Forall Session.clean_slot arr -> JS.occurrences JS.LF v = 0 ->
  Forall Session.clean_slot (JS.splice_insert arr k v).
Proof.
  intros Harr Hv. unfold JS.splice_insert.
  rewrite Forall_app, Forall_cons.
  split; [now apply Forall_take|].
  split; [now apply clean_slot_Some|now apply Forall_drop].
Qed.

Lemma get_clean (arr : list (option string)) (i : nat) :
  Forall Session.clean_slot arr ->
  JS.occurrences JS.LF (JS.or_empty (JS.get arr i)) = 0.
Proof.
  intros Harr. unfold JS.get.
  destruct (arr !! i) as [[l|]|] eqn:Hl; [|reflexivity..].
  exact (proj1 (Forall_lookup _ _) Harr i (Some l) Hl l eq_refl).
Qed.

End LineFeedFacts.

(** ** Invariants of a session *)

Section SessionFacts.

Context {core : EditorCore.CommandCore} {fsys : Fs.FileSystem}.
Implicit Types (st : Editor.EditorState) (text : string).

Import Editor.

(** The loop over the middle pieces keeps the lines clean. *)
Lemma middle_lines_clean (text : string) (cl : nat) (idx : list nat) st :
  Forall Session.clean_slot (lines st) ->
  Forall Session.clean_slot
    (lines
       (fold_left
          (fun acc i =>
             set_lines
               (JS.splice_insert (lines acc) (cl + i)
                  (piece (JS.split JS.LF text) i)) acc)
          idx st)).
Proof.
  revert st. induction idx as [|i idx IH]; intros st Hst; [exact Hst|].
  cbn [fold_left]. apply IH. cbn [lines set_lines].
  apply splice_insert_clean; [exact Hst|apply piece_clean].
Qed.

(** [insertText] keeps the lines free of line feeds, wherever the cursor
    is. *)
Lemma insertText_clean text st :
  Forall Session.clean_slot (lines st) ->
  Forall Session.clean_slot (lines (insertText text st)).
Proof.
  intros Hst.
  pose proof (get_clean (lines st) (cursorLine st) Hst) as Hcur.
  pose proof (occurrences_take_drop JS.LF (cursorColumn st)
                (JS.or_empty (JS.get (lines st) (cursorLine st)))) as Hcut.
  unfold insertText. case_decide as Hone.
  - cbn [lines set_isDirty set_cursorColumn set_lines].
    apply set_clean; [exact Hst|].
    rewrite length_split in Hone.
    unfold JS.slice_from. rewrite slice_0, !occurrences_app. lia.
  - cbn [lines set_isDirty set_cursorColumn set_cursorLine set_lines].
    apply splice_insert_clean.
    + unfold for_range. apply middle_lines_clean.
      cbn [lines set_lines]. apply set_clean; [exact Hst|].
      rewrite slice_0, occurrences_app, piece_clean. lia.
    + unfold JS.slice_from. rewrite occurrences_app, piece_clean. lia.
Qed.

(** [insertText] never removes a line. *)
Lemma insertText_length_le text st :
  length (lines st) <= length (lines (insertText text st)).
Proof.
  assert (Hset : forall v,
             length (lines st) <= length (JS.set (lines st) (cursorLine st) v)).
  { intros v. destruct (decide (cursorLine st < length (lines st))).
    - now rewrite length_set_in_range.
    - rewrite length_set_out_of_range; lia. }
  unfold insertText. case_decide as Hone.
  - cbn [lines set_isDirty set_cursorColumn set_lines]. apply Hset.
  - cbn [lines set_isDirty set_cursorColumn set_cursorLine set_lines].
    rewrite length_splice_insert.
    match goal with
    | |- context [for_range 1 ?hi ?body ?st1] =>
        destruct (middle_lines_range (JS.split JS.LF text) (cursorLine st)
                    hi st1) as [Hlen _]
    end.
    rewrite Hlen. cbn [lines set_lines].
    specialize (Hset (JS.slice (JS.or_empty (JS.get (lines st) (cursorLine st)))
                        0 (cursorColumn st)
                      +:+ piece (JS.split JS.LF text) 0)).
    lia.
Qed.

(** [insertText] touches the lines, the cursor and the dirty flag only. *)
Lemma insertText_frame text st :
  scrollOffset (insertText text st) = scrollOffset st
  /\ filePath (insertText text st) = filePath st
  /\ theme (insertText text st) = theme st
  /\ isCommandPaletteOpen (insertText text st) = isCommandPaletteOpen st
  /\ commandInput (insertText text st) = commandInput st
  /\ filteredCommands (insertText text st) = filteredCommands st
  /\ selectedCommandIndex (insertText text st) = selectedCommandIndex st.
Proof.
  unfold insertText. case_decide as Hone; [repeat split|].
  match goal with
  | |- context [for_range 1 ?hi ?body ?st1] =>
      destruct (middle_lines_range (JS.split JS.LF text) (cursorLine st)
                  hi st1) as [_ Heq];
      set (st2 := for_range 1 hi body st1) in *
  end.
  rewrite Heq. repeat split.
Qed.

(** A property kept by every step holds throughout a session. *)
Lemma run_preserves (I : EditorState -> Prop) :
  (forall op fs st, I st -> I (step op fs st).1) ->
  forall ops fs st, I st -> I (Session.run ops fs st).1.
Proof.
  intros Hstep ops. unfold Session.run.
  induction ops as [|op ops IH]; intros fs st Hst; [exact Hst|].
  cbn [fold_left]. cbn [fst snd].
  destruct (step op fs st) as [st1 fs1] eqn:Hs.
  apply IH. change st1 with (st1, fs1).1. rewrite <- Hs. now apply Hstep.
Qed.

(** What a step can leave behind: the state itself, or the state after
    one of the synchronous mutators, possibly with the palette closed or
    the dirty flag cleared after it. *)
Lemma step_preserves (I : EditorState -> Prop) :
  (forall content st, I st -> I (setContent content st)) ->
  (forall text st, I st -> I (insertText text st)) ->
  (forall st, I st -> I (set_isDirty false st)) ->
  (forall st, I st -> I (openCommandPalette st)) ->
  (forall st, I st -> I (closeCommandPalette st)) ->
  (forall input st, I st -> I (filterCommands input st)) ->
  forall op fs st, I st -> I (step op fs st).1.
Proof.
  intros Hset Hins Hclean Hopen Hclose Hfilter op fs st Hst.
  destruct op as [content|text| | | |input| |input]; cbn [step fst]; auto.
  - unfold save. destruct (negb _); [exact Hst|].
    destruct (Fs.writeFileSync _ _ _) as [fs1 [[]|e]]; cbn [fst]; auto.
  - unfold executeSelectedCommand, executeSelectedCommand_start,
      executeSelectedCommand_resume.
    destruct (_ !! _) as [command|]; [|exact Hst].
    destruct (EditorCore.parseCommandInput _) as [[n a]|];
      [|cbn [final_state]; auto].
    destruct (createCommandContext st) as [context|e0]; [|exact Hst].
    destruct (EditorCore.executeCommand n a context) as [r|e1];
      [|exact Hst].
    cbn [final_state]. auto.
Qed.

(** What the constructor builds when it returns. *)
Lemma constructor_Ok (fs : Fs.FS) (options : EditorOptions) st :
  constructor fs options = JS.Ok st ->
  exists content,
    lines st = Some <$> JS.split JS.LF content
    /\ selectedCommandIndex st = 0
    /\ scrollOffset st = 0
    /\ filePath st = opt_filePath options.
Proof.
  unfold constructor. intros Hnew.
  destruct (JS.truthy (opt_filePath options)
            && Fs.existsSync fs (JS.or_empty (opt_filePath options))).
  - destruct (Fs.readFileSync fs _) as [c|e];
      cbn [mbind JS.result_bind] in Hnew; [|discriminate].
    injection Hnew as <-. exists c. repeat split.
  - cbn [mbind JS.result_bind] in Hnew. injection Hnew as <-.
    eexists. repeat split.
Qed.

End SessionFacts.

(** ** Further properties: sessions, persistence and the palette *)

Section SessionProperties.

Context {core : EditorCore.CommandCore} {fsys : Fs.FileSystem}.
Implicit Types (st : Editor.EditorState) (text : string).

Import Editor.

(** X10.  Throughout a session that starts at the constructor, whatever
    the calls and their arguments, the buffer has at least one line and no
    line holds a line feed. *)
Theorem session_buffer_well_formed (fs0 : Fs.FS) (options : EditorOptions)
    st0 (ops : list operation) (fs : Fs.FS) :
  constructor fs0 options = JS.Ok st0 ->
  1 <= length (lines (Session.run ops fs st0).1)
  /\ Session.no_line_feed (lines (Session.run ops fs st0).1).
Proof.
  intros Hnew. rewrite no_line_feed_Forall.
  set (I := fun st => 1 <= length (lines st)
                      /\ Forall Session.clean_slot (lines st)).
  apply (run_preserves I).
  - apply (step_preserves I); subst I; cbn beta;
      try (intros; assumption).
    + intros content st _. cbn [setContent lines set_isDirty set_lines].
      rewrite length_fmap, length_split. split; [lia|].
      apply Forall_fmap. eapply Forall_impl; [apply split_pieces_clean|].
      intros p Hp. now apply clean_slot_Some.
    + intros text st [Hlen Hclean]. split.
      * pose proof (insertText_length_le text st). lia.
      * now apply insertText_clean.
    + intros input st Hst. unfold filterCommands.
      now destruct (JS.truthy _).
  - subst I. cbn beta.
    destruct (constructor_Ok fs0 options st0 Hnew) as (content & -> & _).
    rewrite length_fmap, length_split. split; [lia|].
    apply Forall_fmap. eapply Forall_impl; [apply split_pieces_clean|].
    intros p Hp. now apply clean_slot_Some.
Qed.

(** X11.  Throughout a session that starts at the constructor, the
    selected index and the scroll offset stay 0 and the file path and the
    theme stay what the constructor set: the palette can only ever run the
    first command of its filtered list, and [save] always targets the path
    bound at construction. *)
Theorem session_frozen_fields (fs0 : Fs.FS) (options : EditorOptions)
    st0 (ops : list operation) (fs : Fs.FS) :
  constructor fs0 options = JS.Ok st0 ->
  selectedCommandIndex (Session.run ops fs st0).1 = 0
  /\ scrollOffset (Session.run ops fs st0).1 = 0
  /\ filePath (Session.run ops fs st0).1 = opt_filePath options
  /\ theme (Session.run ops fs st0).1 = theme st0.
Proof.
  intros Hnew.
  set (I := fun st => selectedCommandIndex st = 0 /\ scrollOffset st = 0
                      /\ filePath st = opt_filePath options
                      /\ theme st = theme st0).
  apply (run_preserves I).
  - apply (step_preserves I); subst I; cbn beta;
      try (intros; assumption).
    + intros text st (Hsel & Hscroll & Hpath & Htheme).
      destruct (insertText_frame text st)
        as (-> & -> & -> & _ & _ & _ & ->). auto.
    + intros st (Hsel & Hscroll & Hpath & Htheme). repeat split; assumption.
    + intros st (Hsel & Hscroll & Hpath & Htheme). repeat split; assumption.
    + intros input st (Hsel & Hscroll & Hpath & Htheme).
      unfold filterCommands. destruct (JS.truthy _); repeat split; assumption.
  - subst I. cbn beta.
    destruct (constructor_Ok fs0 options st0 Hnew)
      as (content & _ & Hsel & Hscroll & Hpath).
    repeat split; assumption.
Qed.

(** X12.  On a buffer with at least one line, without holes and without
    line feed inside a line, [setContent(getContent())] rebuilds exactly
    the same lines. *)
Theorem setContent_of_getContent_keeps_lines st :
  lines st <> [] ->
  Session.dense (lines st) ->
  Session.no_line_feed (lines st) ->
  lines (setContent (getContent st) st) = lines st.
Proof.
  intros Hne Hdense Hclean.
  assert (Hls : lines st = Some <$> (JS.or_empty <$> lines st)).
  { clear Hne Hclean. induction (lines st) as [|slot ls IH]; [reflexivity|].
    rewrite !fmap_cons. f_equal.
    - destruct (Hdense 0 slot eq_refl) as [l ->]. reflexivity.
    - apply IH. intros i slot' Hslot'. exact (Hdense (S i) slot' Hslot'). }
  cbn [setContent lines set_isDirty set_lines]. unfold getContent.
  rewrite Hls at 1. rewrite split_join; [now rewrite <- Hls| |].
  - intros Hnil. apply fmap_nil_inv in Hnil. contradiction.
  - apply Forall_fmap, Forall_lookup. intros i slot Hslot.
    destruct (Hdense i slot Hslot) as [l ->]. cbn. eauto.
Qed.

(** X13.  [save()] returns [true] exactly when a non-empty path is bound
    and the write did not throw.  Then only the dirty flag changes, to
    [false]; otherwise the editor state is left untouched, so that after a
    failed write the unsaved changes are still flagged. *)
Theorem save_outcome (fs : Fs.FS) st :
  let '(ok, st', fs') := save fs st in
  (ok = true <->
   exists path,
     filePath st = Some path /\ path <> ""
     /\ Fs.writeFileSync fs path (getContent st) = (fs', JS.Ok tt))
  /\ st' = (if ok then set_isDirty false st else st)
  /\ (JS.truthy (filePath st) = false -> fs' = fs).
Proof.
  unfold save. destruct (filePath st) as [[|c path]|] eqn:Hpath;
    cbn [JS.truthy negb JS.or_empty].
  - split; [split; [discriminate|]|split; reflexivity].
    intros (path & [= <-] & Hne & _). congruence.
  - destruct (Fs.writeFileSync fs (String c path) (getContent st))
      as [fs1 [[]|e]] eqn:Hw.
    + split; [split; [|reflexivity]|split; [reflexivity|discriminate]].
      intros _. exists (String c path). repeat split; [discriminate|exact Hw].
    + split; [split; [discriminate|]|split; [reflexivity|discriminate]].
      intros (path' & [= <-] & _ & Hw'). congruence.
  - split; [split; [discriminate|]|split; reflexivity].
    intros (path & [=] & _).
Qed.

(** X14.  On a file system where a file that was written can be read
    back, a successful [save()] followed by constructing an editor on the
    same path gives back the saved content, not dirty, whatever content
    option is passed along. *)
Theorem save_then_reopen_restores_content (fs fs' : Fs.FS) st st'
    (content theme : option string) :
  save fs st = (true, st', fs') ->
  (forall path data,
      Fs.writeFileSync fs path data = (fs', JS.Ok tt) ->
      Fs.existsSync fs' path = true /\ Fs.readFileSync fs' path = JS.Ok data) ->
  exists st2,
    constructor fs'
      {| opt_filePath := filePath st; opt_content := content;
         opt_theme := theme |}
    = JS.Ok st2
    /\ getContent st2 = getContent st
    /\ isDirty st2 = false.
Proof.
  intros Hsave Hlaw. unfold save in Hsave.
  destruct (JS.truthy (filePath st)) eqn:Htruthy; cbn [negb] in Hsave;
    [|discriminate].
  destruct (Fs.writeFileSync fs _ _) as [fs1 [[]|e]] eqn:Hw; [|discriminate].
  injection Hsave as <- <-.
  destruct (Hlaw _ _ Hw) as [Hexists Hread].
  unfold constructor. cbn [opt_filePath opt_content opt_theme].
  rewrite Htruthy, Hexists, Hread. cbn [andb mbind JS.result_bind].
  eexists. split; [reflexivity|]. split; [|reflexivity].
  unfold getContent at 1. cbn [lines]. apply join_split.
Qed.

(** X15.  A constructed editor holds the file's content when the path is
    bound and the file exists, the content option being ignored, and
    otherwise the content option, or the empty document without one; the
    path is bound as given and the palette is closed. *)
Theorem constructor_content (fs : Fs.FS) (options : EditorOptions) st :
  constructor fs options = JS.Ok st ->
  (if JS.truthy (opt_filePath options)
      && Fs.existsSync fs (JS.or_empty (opt_filePath options))
   then Fs.readFileSync fs (JS.or_empty (opt_filePath options))
        = JS.Ok (getContent st)
   else getContent st = JS.or_empty (opt_content options))
  /\ filePath st = opt_filePath options
  /\ palette_closed st.
Proof.
  unfold constructor. intros Hnew.
  destruct (JS.truthy (opt_filePath options)
            && Fs.existsSync fs (JS.or_empty (opt_filePath options))).
  - destruct (Fs.readFileSync fs _) as [c|e];
      cbn [mbind JS.result_bind] in Hnew; [|discriminate].
    injection Hnew as <-. unfold getContent. cbn [lines].
    rewrite join_split. repeat split.
  - cbn [mbind JS.result_bind] in Hnew. injection Hnew as <-.
    unfold getContent. cbn [lines]. rewrite join_split. repeat split.
Qed.

(** X16.  Opening the palette, filtering it any number of times and
    closing it again restores a state whose palette was closed: the
    document, the cursor and the dirty flag are not touched on the way. *)
Theorem palette_round_trip (inputs : list string) st :
  palette_closed st ->
  closeCommandPalette
    (fold_left (fun acc input => filterCommands input acc) inputs
       (openCommandPalette st))
  = st.
Proof.
  intros (Hopen & Hinput & Hfiltered & Hsel).
  assert (Hgen : forall st1,
             closeCommandPalette st1 = st ->
             closeCommandPalette
               (fold_left (fun acc input => filterCommands input acc)
                  inputs st1) = st).
  { induction inputs as [|input inputs IH]; intros st1 Hst1; [exact Hst1|].
    cbn [fold_left]. apply IH. rewrite <- Hst1.
    unfold filterCommands. now destruct (JS.truthy _). }
  apply Hgen. destruct st. cbn in *. now subst.
Qed.

(** X17.  Clearing the query brings back the freshly opened palette:
    filtering with the empty string after any other query lists every
    command again, as [openCommandPalette] does. *)
Theorem filterCommands_cleared_query (input : string) st :
  filterCommands "" (filterCommands input (openCommandPalette st))
  = openCommandPalette st.
Proof. unfold filterCommands. now destruct (JS.truthy (Some input)). Qed.

End SessionProperties.

(** ** The palette's command line *)

Section CommandLineFacts.

Lemma remove_first_unfold (pat s : string) :
  JS.remove_first pat s
  = if String.prefix pat s then JS.str_drop (String.length pat) s
    else match s with
         | EmptyString => ""
         | String c s' => String c (JS.remove_first pat s')
         end.
Proof. now destruct s. Qed.

Lemma prefix_app (a b : string) : String.prefix a (a +:+ b) = true.
Proof.
  induction a as [|c a IH]; [now destruct b|].
  rewrite app_String. cbn [String.prefix].
  now destruct (ascii_dec c c).
Qed.

Lemma prefix_cut (pat s : string) :
  String.prefix pat s = true ->
  s = pat +:+ JS.str_drop (String.length pat) s.
Proof.
  revert s. induction pat as [|c pat IH]; intros s Hs.
  - now destruct s.
  - destruct s as [|c' s]; cbn [String.prefix] in Hs; [discriminate|].
    destruct (ascii_dec c c') as [<-|]; [|discriminate].
    rewrite app_String. cbn [String.length JS.str_drop]. f_equal.
    now apply IH.
Qed.

(** Nothing is removed from an input in which the pattern does not
    occur. *)
Lemma remove_first_absent (pat s : string) :
  (forall a b, s <> a +:+ pat +:+ b) ->
  JS.remove_first pat s = s.
Proof.
  induction s as [|c s IH]; intros Habsent; rewrite remove_first_unfold.
  - destruct (String.prefix pat "") eqn:Hp; [|reflexivity].
    exfalso. apply (Habsent "" (JS.str_drop (String.length pat) "")).
    rewrite app_empty_l. now apply prefix_cut.
  - destruct (String.prefix pat (String c s)) eqn:Hp.
    + exfalso.
      apply (Habsent "" (JS.str_drop (String.length pat) (String c s))).
      rewrite app_empty_l. now apply prefix_cut.
    + f_equal. apply IH. intros a b Hs.
      apply (Habsent (String c a) b). rewrite app_String. now f_equal.
Qed.

End CommandLineFacts.

Section CommandLineProperties.

Context {core : EditorCore.CommandCore}.
Implicit Types (st : Editor.EditorState).

Import Editor.

(** X18.  When the palette input is the selected command's name followed
    by more text, the parser is handed the command marker, the name, one
    space and that text trimmed of surrounding white space. *)
Theorem fullInput_name_then_arguments (command : EditorCore.SlashCommand)
    (rest : string) st :
  commandInput st = EditorCore.name command +:+ rest ->
  Session.fullInput command st
  = "/" +:+ EditorCore.name command +:+ " " +:+ JS.trim rest.
Proof.
  intros Hinput. unfold Session.fullInput. rewrite Hinput.
  rewrite remove_first_unfold, prefix_app.
  change (String.length (EditorCore.name command))
    with (JS.length (EditorCore.name command)).
  now rewrite str_drop_app_length.
Qed.

(** X19.  When the selected command's name does not occur in the palette
    input - the input is a partial query that matched the command - the
    whole input, trimmed, is handed to the parser as the command's
    arguments. *)
Theorem fullInput_partial_query_becomes_argument
    (command : EditorCore.SlashCommand) st :
  (forall a b, commandInput st <> a +:+ EditorCore.name command +:+ b) ->
  Session.fullInput command st
  = "/" +:+ EditorCore.name command +:+ " " +:+ JS.trim (commandInput st).
Proof.
  intros Habsent. unfold Session.fullInput.
  now rewrite remove_first_absent.
Qed.

End CommandLineProperties.

(** ** The command line script *)

Section CliProperties.

Lemma includes_In (x : string) (args : list string) :
  Cli.includes x args = true <-> In x args.
Proof.
  unfold Cli.includes. rewrite existsb_exists. split.
  - intros (y & Hy & Heq). apply String.eqb_eq in Heq. now subst.
  - intros Hx. exists x. split; [exact Hx|apply String.eqb_refl].
Qed.

Lemma find_first (pred : string -> bool) (args : list string) :
  match Cli.find pred args with
  | Some p =>
      exists flags rest,
        args = flags ++ p :: rest
        /\ Forall (fun arg => pred arg = false) flags
        /\ pred p = true
  | None => Forall (fun arg => pred arg = false) args
  end.
Proof.
  unfold Cli.find. induction args as [|arg args IH]; cbn [List.find].
  - constructor.
  - destruct (pred arg) eqn:Harg.
    + exists [], args. repeat split; [constructor|exact Harg].
    + destruct (List.find pred args) as [p|].
      * destruct IH as (flags & rest & -> & Hflags & Hp).
        exists (arg :: flags), rest. repeat split; [|exact Hp].
        now constructor.
      * now constructor.
Qed.

(** X20.  A help flag anywhere among the arguments wins over everything
    else; a version flag wins when no help flag is present; the editor is
    started exactly when neither kind of flag is present. *)
Theorem main_flag_precedence (args : list string) :
  (Cli.main args = Cli.PrintHelp <-> In "--help" args \/ In "-h" args)
  /\ (Cli.main args = Cli.PrintVersion <->
      ~ (In "--help" args \/ In "-h" args)
      /\ (In "--version" args \/ In "-v" args))
  /\ ((exists options, Cli.main args = Cli.StartEditor options) <->
      ~ (In "--help" args \/ In "-h" args)
      /\ ~ (In "--version" args \/ In "-v" args)).
Proof.
  unfold Cli.main.
  rewrite <- !includes_In.
  destruct (Cli.includes "--help" args), (Cli.includes "-h" args),
    (Cli.includes "--version" args), (Cli.includes "-v" args);
    cbn [orb];
    repeat match goal with
           | |- _ /\ _ => split
           | |- _ <-> _ => split
           end;
    intros H;
    try discriminate;
    try match type of H with
        | ex _ => destruct H; discriminate
        end;
    try (eexists; reflexivity);
    try (intuition discriminate).
Qed.

(** X21.  When the editor is started, its file path is the first argument
    that does not begin with a dash: every argument before it begins with
    one, and what follows it is ignored; without such an argument no path
    is bound.  Neither content nor theme is ever passed. *)
Theorem main_starts_editor_on_first_non_flag (args : list string)
    (options : Editor.EditorOptions) :
  Cli.main args = Cli.StartEditor options ->
  Editor.opt_content options = None
  /\ Editor.opt_theme options = None
  /\ match Editor.opt_filePath options with
     | Some path =>
         exists flags rest,
           args = flags ++ path :: rest
           /\ Forall (fun arg => Cli.startsWith "-" arg = true) flags
           /\ Cli.startsWith "-" path = false
     | None => Forall (fun arg => Cli.startsWith "-" arg = true) args
     end.
Proof.
  unfold Cli.main. intros Hmain.
  destruct (Cli.includes "--help" args || Cli.includes "-h" args);
    [discriminate|].
  destruct (Cli.includes "--version" args || Cli.includes "-v" args);
    [discriminate|].
  injection Hmain as <-. cbn [Editor.opt_content Editor.opt_theme
                               Editor.opt_filePath].
  split; [reflexivity|]. split; [reflexivity|].
  pose proof (find_first (fun arg => negb (Cli.startsWith "-" arg)) args)
    as Hfind.
  destruct (Cli.find _ args) as [path|].
  - destruct Hfind as (flags & rest & -> & Hflags & Hpath).
    exists flags, rest. split; [reflexivity|]. split.
    + eapply Forall_impl; [exact Hflags|]. intros arg Harg.
      now apply negb_false_iff.
    + now apply negb_true_iff.
  - eapply Forall_impl; [exact Hfind|]. intros arg Harg.
    now apply negb_false_iff.
Qed.

(** X22.  With no unsaved changes an interrupt ends the process at once;
    with unsaved changes the first interrupt only prints the warning and
    arms the second handler; and whatever the dirty flag answers at either
    time, the second of two interrupts ends the process, always with exit
    code 0. *)
Theorem interrupts_exit_by_the_second (dirty1 dirty2 : bool) :
  (forall armed, Cli.sigint false armed = Cli.Exited [Cli.exiting] 0)
  /\ Cli.sigint true 0 = Cli.Running [Cli.unsaved_warning] 1
  /\ exists output,
       Cli.two_interrupts dirty1 dirty2 = Cli.Exited output 0
       /\ (dirty1 = true -> dirty2 = true ->
           output = [Cli.unsaved_warning; Cli.unsaved_warning;
                     Cli.exiting_without_saving]).
Proof.
  split; [reflexivity|]. split; [reflexivity|].
  destruct dirty1, dirty2; eexists; (split; [reflexivity|]);
    intros; first [reflexivity|discriminate].
Qed.

End CliProperties.

(** ** Worked scenarios for the further properties *)

(** A property of every slot of a concrete buffer of at most three
    lines. *)
Ltac concrete_slots :=
  let i := fresh "i" in
  let x := fresh "x" in
  let H := fresh "H" in
  intros i x H;
  do 3 (destruct i as [|i];
        [vm_compute in H; simplify_eq; first [reflexivity|eauto]|]);
  vm_compute in H; discriminate.

Lemma createCommandContext_missing_line_witness :
  Editor.cursorLine Scenario.shrunk_under_cursor = 2
  /\ Editor.lines Scenario.shrunk_under_cursor = [Some ""]
  /\ Editor.createCommandContext Scenario.shrunk_under_cursor
     = JS.Throw JS.TypeError.
Proof.
  split; [reflexivity|]. split; [reflexivity|].
  apply (proj1 (createCommandContext_missing_line Scenario.shrunk_under_cursor)).
  exists 1. split; [vm_compute; lia|reflexivity].
Defined.

Lemma insertText_inserts_at_offset_witness :
  Editor.cursor_valid Fixture.ab_at_0_1
  /\ Editor.getContent (Editor.insertText Fixture.X_nl_Y Fixture.ab_at_0_1)
     = JS.slice ("a" +:+ String JS.LF "b") 0 1
       +:+ Fixture.X_nl_Y
       +:+ JS.slice_from ("a" +:+ String JS.LF "b") 1.
Proof.
  split; [concrete_cursor_valid|].
  refine (insertText_inserts_at_offset Fixture.X_nl_Y Fixture.ab_at_0_1 _ _
            eq_refl).
  concrete_cursor_valid.
Defined.

Lemma insertText_advances_offset_witness :
  Editor.cursor_valid Fixture.ab_at_0_1
  /\ exists context',
       Editor.createCommandContext
         (Editor.insertText Fixture.X_nl_Y Fixture.ab_at_0_1)
       = JS.Ok context'
       /\ EditorCore.offset (EditorCore.cursor context') = 1 + 3.
Proof.
  split; [concrete_cursor_valid|].
  refine (insertText_advances_offset Fixture.X_nl_Y Fixture.ab_at_0_1 _ _
            eq_refl).
  concrete_cursor_valid.
Defined.

Lemma insertText_twice_is_concatenation_witness :
  Editor.cursor_valid Fixture.ab_at_0_1
  /\ Editor.getContent
       (Editor.insertText "Y" (Editor.insertText Fixture.X_nl_Y Fixture.ab_at_0_1))
     = Editor.getContent
         (Editor.insertText (Fixture.X_nl_Y +:+ "Y") Fixture.ab_at_0_1).
Proof.
  split; [concrete_cursor_valid|].
  apply (insertText_twice_is_concatenation Fixture.X_nl_Y "Y" Fixture.ab_at_0_1).
  concrete_cursor_valid.
Defined.



Lemma insertText_empty_only_dirties_witness :
  Editor.cursor_valid Fixture.ab_at_0_1
  /\ Editor.insertText "" Fixture.ab_at_0_1
     = Editor.set_isDirty true Fixture.ab_at_0_1.
Proof.
  split; [concrete_cursor_valid|].
  apply (insertText_empty_only_dirties Fixture.ab_at_0_1).
  concrete_cursor_valid.
Defined.

Lemma insertText_below_buffer_pads_with_holes_witness :
  length (Editor.lines Scenario.shrunk_under_cursor)
  <= Editor.cursorLine Scenario.shrunk_under_cursor
  /\ JS.occurrences JS.LF "q" = 0
  /\ Editor.lines (Editor.insertText "q" Scenario.shrunk_under_cursor)
     = [Some ""; None; Some "q"]
  /\ Editor.getCursor (Editor.insertText "q" Scenario.shrunk_under_cursor)
     = (2, 2).
Proof.
  split; [vm_compute; lia|]. split; [reflexivity|].
  apply (insertText_below_buffer_pads_with_holes "q"
           Scenario.shrunk_under_cursor);
    [vm_compute; lia|reflexivity].
Defined.

Lemma insertText_cursor_after_line_feeds_witness :
  Editor.cursor_valid Fixture.ab_at_0_1
  /\ JS.occurrences JS.LF Scenario.X_nl_Y_nl_Z = 2
  /\ Editor.getCursor
       (Editor.insertText Scenario.X_nl_Y_nl_Z Fixture.ab_at_0_1)
     = (0 + 2, JS.length "Z").
Proof.
  split; [concrete_cursor_valid|]. split; [reflexivity|].
  apply (insertText_cursor_after_line_feeds Scenario.X_nl_Y_nl_Z
           Fixture.ab_at_0_1 2);
    [concrete_cursor_valid|reflexivity|lia].
Defined.

Lemma session_buffer_well_formed_witness :
  Editor.constructor (fsys := Fixture.fsys) Fixture.disk Editor.no_options
  = JS.Ok Fixture.empty_document
  /\ 1 <= length
            (Editor.lines
               (Session.run (fsys := Fixture.fsys) Scenario.shrinking_session
                  Fixture.disk Fixture.empty_document).1)
  /\ Session.no_line_feed
       (Editor.lines
          (Session.run (fsys := Fixture.fsys) Scenario.shrinking_session
             Fixture.disk Fixture.empty_document).1).
Proof.
  split; [reflexivity|].
  exact (session_buffer_well_formed (fsys := Fixture.fsys) Fixture.disk
           Editor.no_options Fixture.empty_document
           Scenario.shrinking_session Fixture.disk eq_refl).
Defined.

Lemma session_frozen_fields_witness :
  Editor.constructor (fsys := Fixture.fsys) Fixture.disk Editor.no_options
  = JS.Ok Fixture.empty_document
  /\ Editor.selectedCommandIndex
       (Session.run (fsys := Fixture.fsys) Scenario.shrinking_session
          Fixture.disk Fixture.empty_document).1 = 0
  /\ Editor.scrollOffset
       (Session.run (fsys := Fixture.fsys) Scenario.shrinking_session
          Fixture.disk Fixture.empty_document).1 = 0
  /\ Editor.filePath
       (Session.run (fsys := Fixture.fsys) Scenario.shrinking_session
          Fixture.disk Fixture.empty_document).1 = None
  /\ Editor.theme
       (Session.run (fsys := Fixture.fsys) Scenario.shrinking_session
          Fixture.disk Fixture.empty_document).1 = "default".
Proof.
  split; [reflexivity|].
  exact (session_frozen_fields (fsys := Fixture.fsys) Fixture.disk
           Editor.no_options Fixture.empty_document
           Scenario.shrinking_session Fixture.disk eq_refl).
Defined.

Lemma setContent_of_getContent_keeps_lines_witness :
  Editor.lines Fixture.ab_at_0_1 <> []
  /\ Session.dense (Editor.lines Fixture.ab_at_0_1)
  /\ Session.no_line_feed (Editor.lines Fixture.ab_at_0_1)
  /\ Editor.lines
       (Editor.setContent (Editor.getContent Fixture.ab_at_0_1)
          Fixture.ab_at_0_1)
     = Editor.lines Fixture.ab_at_0_1.
Proof.
  assert (Hne : Editor.lines Fixture.ab_at_0_1 <> []) by discriminate.
  assert (Hdense : Session.dense (Editor.lines Fixture.ab_at_0_1))
    by concrete_slots.
  assert (Hclean : Session.no_line_feed (Editor.lines Fixture.ab_at_0_1))
    by concrete_slots.
  split; [exact Hne|]. split; [exact Hdense|]. split; [exact Hclean|].
  exact (setContent_of_getContent_keeps_lines Fixture.ab_at_0_1
           Hne Hdense Hclean).
Defined.

Lemma save_outcome_witness :
  exists path,
    Editor.filePath Fixture.notes_dirty = Some path /\ path <> ""
    /\ Fs.writeFileSync (FileSystem := Fixture.fsys) Fixture.disk path
         (Editor.getContent Fixture.notes_dirty)
       = (Scenario.disk_after_save, JS.Ok tt).
Proof.
  destruct (save_outcome (core := Fixture.core) (fsys := Fixture.fsys)
              Fixture.disk Fixture.notes_dirty) as (Hok & _).
  apply Hok. reflexivity.
Defined.

Lemma save_then_reopen_restores_content_witness :
  Editor.save (fsys := Fixture.fsys) Fixture.disk Fixture.notes_dirty
  = (true, Editor.set_isDirty false Fixture.notes_dirty,
     Scenario.disk_after_save)
  /\ exists st2,
       Editor.constructor (core := Fixture.core) (fsys := Fixture.fsys)
         Scenario.disk_after_save
         {| Editor.opt_filePath := Some "notes.md";
            Editor.opt_content := Some "ignored";
            Editor.opt_theme := None |}
       = JS.Ok st2
       /\ Editor.getContent st2 = Editor.getContent Fixture.notes_dirty
       /\ Editor.isDirty st2 = false.
Proof.
  split; [reflexivity|].
  refine (save_then_reopen_restores_content (core := Fixture.core)
            (fsys := Fixture.fsys)
            Fixture.disk Scenario.disk_after_save Fixture.notes_dirty _
            (Some "ignored") None eq_refl _).
  intros path data Hwrite. unfold Scenario.disk_after_save in *.
  cbn in Hwrite. injection Hwrite as -> ->. split; reflexivity.
Defined.

Lemma constructor_content_witness :
  Editor.constructor (fsys := Fixture.fsys) Fixture.disk
    {| Editor.opt_filePath := Some "notes.md";
       Editor.opt_content := Some "ignored";
       Editor.opt_theme := None |}
  = JS.Ok Fixture.notes_opened
  /\ Fs.readFileSync (FileSystem := Fixture.fsys) Fixture.disk "notes.md"
     = JS.Ok (Editor.getContent Fixture.notes_opened).
Proof.
  split; [reflexivity|].
  destruct (constructor_content (core := Fixture.core)
              (fsys := Fixture.fsys) Fixture.disk
              {| Editor.opt_filePath := Some "notes.md";
                 Editor.opt_content := Some "ignored";
                 Editor.opt_theme := None |}
              Fixture.notes_opened eq_refl) as (Hread & _).
  exact Hread.
Defined.

Lemma palette_round_trip_witness :
  Editor.palette_closed Fixture.ab_at_0_1
  /\ Editor.closeCommandPalette
       (Editor.filterCommands "zzz"
          (Editor.filterCommands "h"
             (Editor.openCommandPalette Fixture.ab_at_0_1)))
     = Fixture.ab_at_0_1.
Proof.
  assert (Hclosed : Editor.palette_closed Fixture.ab_at_0_1)
    by (repeat split).
  split; [exact Hclosed|].
  exact (palette_round_trip ["h"; "zzz"] Fixture.ab_at_0_1 Hclosed).
Defined.

Lemma fullInput_name_then_arguments_witness :
  Editor.commandInput Scenario.typed_h1_title = "h1" +:+ " Title  "
  /\ Session.fullInput (core := Fixture.core) "h1" Scenario.typed_h1_title
     = "/h1 Title".
Proof.
  split; [reflexivity|].
  exact (fullInput_name_then_arguments (core := Fixture.core) "h1" " Title  "
           Scenario.typed_h1_title eq_refl).
Defined.

Lemma fullInput_partial_query_becomes_argument_witness :
  Editor.commandInput Scenario.filtered_h = "h"
  /\ Session.fullInput (core := Fixture.core) "h1" Scenario.filtered_h
     = "/h1 h".
Proof.
  split; [reflexivity|].
  refine (fullInput_partial_query_becomes_argument (core := Fixture.core)
            "h1" Scenario.filtered_h _).
  intros a b Hocc. apply (f_equal JS.length) in Hocc.
  rewrite !length_app_str in Hocc. unfold JS.length in Hocc.
  simpl in Hocc. lia.
Defined.

Lemma main_flag_precedence_witness :
  In "-h" ["notes.md"; "-v"; "-h"]
  /\ Cli.main ["notes.md"; "-v"; "-h"] = Cli.PrintHelp.
Proof.
  assert (Hin : In "-h" ["notes.md"; "-v"; "-h"]) by (cbn; tauto).
  split; [exact Hin|].
  apply (proj1 (main_flag_precedence ["notes.md"; "-v"; "-h"])).
  right. exact Hin.
Defined.

Lemma main_starts_editor_on_first_non_flag_witness :
  Cli.main Scenario.verbose_notes_other
  = Cli.StartEditor {| Editor.opt_filePath := Some "notes.md";
                       Editor.opt_content := None;
                       Editor.opt_theme := None |}
  /\ exists flags rest,
       Scenario.verbose_notes_other = flags ++ "notes.md" :: rest
       /\ Forall (fun arg => Cli.startsWith "-" arg = true) flags
       /\ Cli.startsWith "-" "notes.md" = false.
Proof.
  split; [reflexivity|].
  destruct (main_starts_editor_on_first_non_flag Scenario.verbose_notes_other
              _ eq_refl) as (_ & _ & Hpath).
  exact Hpath.
Defined.

Lemma interrupts_exit_by_the_second_witness :
  exists output,
    Cli.two_interrupts true true = Cli.Exited output 0
    /\ output = [Cli.unsaved_warning; Cli.unsaved_warning;
                 Cli.exiting_without_saving].
Proof.
  destruct (interrupts_exit_by_the_second true true)
    as (_ & _ & output & Hexit & Hout).
  exists output. split; [exact Hexit|exact (Hout eq_refl eq_refl)].
Defined.

(** ** Sessions that never replace the content *)

Section StableSessions.

Context {core : EditorCore.CommandCore} {fsys : Fs.FileSystem}.
Implicit Types (st : Editor.EditorState) (text : string).

Import Editor.

(** [insertText] at a valid cursor creates no hole. *)
Lemma insertText_dense text st :
  cursor_valid st ->
  Session.dense (lines st) ->
  Session.dense (lines (insertText text st)).
Proof.
  intros (l & Hl & Hcol) Hdense.
  destruct (insertText_lines_cut text st l Hl Hcol)
    as (above & last & Hlines & _ & Habove & _).
  intros i slot Hslot. rewrite Hlines in Hslot.
  apply lookup_app_Some in Hslot as [Hin|[Hge Hin]].
  - destruct (Habove i (lookup_lt_Some _ _ _ Hin)) as [[l' Hl']|[_ Hsame]].
    + rewrite Hl' in Hin. injection Hin as <-. eauto.
    + rewrite Hsame in Hin. exact (Hdense i slot Hin).
  - destruct (i - length above) as [|j].
    + injection Hin as <-. eauto.
    + change (drop (S (cursorLine st)) (lines st) !! j = Some slot) in Hin.
      rewrite lookup_drop in Hin. exact (Hdense _ slot Hin).
Qed.

(** The constructor leaves a valid cursor on a buffer without holes. *)
Lemma constructor_stable (fs : Fs.FS) (options : EditorOptions) st :
  constructor fs options = JS.Ok st ->
  cursor_valid st /\ Session.dense (lines st).
Proof.
  unfold constructor. intros Hnew.
  assert (Hgen : forall content,
             cursor_valid
               {| lines := Some <$> JS.split JS.LF content;
                  cursorLine := 0; cursorColumn := 0; scrollOffset := 0;
                  isDirty := false; filePath := opt_filePath options;
                  theme := if JS.truthy (opt_theme options)
                           then JS.or_empty (opt_theme options)
                           else "default";
                  isCommandPaletteOpen := false; commandInput := "";
                  filteredCommands := []; selectedCommandIndex := 0 |}
             /\ Session.dense (Some <$> JS.split JS.LF content)).
  { intros content. split.
    - unfold cursor_valid. cbn [lines cursorLine cursorColumn].
      pose proof (split_not_nil JS.LF content) as Hnil.
      destruct (JS.split JS.LF content) as [|p ps]; [congruence|].
      exists p. split; [reflexivity|lia].
    - intros i slot Hslot. rewrite list_lookup_fmap in Hslot.
      destruct (JS.split JS.LF content !! i); [|discriminate].
      injection Hslot as <-. eauto. }
  destruct (JS.truthy (opt_filePath options)
            && Fs.existsSync fs (JS.or_empty (opt_filePath options))).
  - destruct (Fs.readFileSync fs _) as [c|e];
      cbn [mbind JS.result_bind] in Hnew; [|discriminate].
    injection Hnew as <-. apply Hgen.
  - cbn [mbind JS.result_bind] in Hnew. injection Hnew as <-. apply Hgen.
Qed.

(** A property kept by every step other than [setContent] holds
    throughout a session without [setContent]. *)
Lemma run_preserves_without_setContent (I : EditorState -> Prop) :
  (forall text st, I st -> I (insertText text st)) ->
  (forall st, I st -> I (set_isDirty false st)) ->
  (forall st, I st -> I (openCommandPalette st)) ->
  (forall st, I st -> I (closeCommandPalette st)) ->
  (forall input st, I st -> I (filterCommands input st)) ->
  forall ops fs st,
    Forall (fun op => forall content, op <> SetContent content) ops ->
    I st -> I (Session.run ops fs st).1.
Proof.
  intros Hins Hclean Hopen Hclose Hfilter ops. unfold Session.run.
  induction ops as [|op ops IH]; intros fs st Hops Hst; [exact Hst|].
  inversion Hops as [|? ? Hop Hrest]; subst.
  cbn [fold_left]. cbn [fst snd].
  destruct (step op fs st) as [st1 fs1] eqn:Hs.
  apply IH; [exact Hrest|]. change st1 with (st1, fs1).1. rewrite <- Hs.
  clear Hs IH Hrest Hops.
  destruct op as [content|text| | | |input| |input]; cbn [step fst]; auto.
  - now destruct (Hop content).
  - unfold save. destruct (negb _); [exact Hst|].
    destruct (Fs.writeFileSync _ _ _) as [fs2 [[]|e]]; cbn [fst]; auto.
  - unfold executeSelectedCommand, executeSelectedCommand_start,
      executeSelectedCommand_resume.
    destruct (_ !! _) as [command|]; [|exact Hst].
    destruct (EditorCore.parseCommandInput _) as [[n a]|];
      [|cbn [final_state]; auto].
    destruct (createCommandContext st) as [context|e0]; [|exact Hst].
    destruct (EditorCore.executeCommand n a context) as [r|e1];
      [|exact Hst].
    cbn [final_state]. auto.
Qed.

(** A call of [executeSelectedCommand] during whose [await] other calls
    are made leaves the state of a session: those calls, then [InsertText]
    of the executor's answer and [CloseCommandPalette]. *)
Lemma interleaved_call_is_session (ops : list operation) (fs : Fs.FS) st
    (parsed_name : string) (parsed_args : EditorCore.CommandArgs)
    (context : EditorCore.CommandContext) (r : string) :
  executeSelectedCommand_start st = Awaiting parsed_name parsed_args context ->
  EditorCore.executeCommand parsed_name parsed_args context = JS.Ok r ->
  final_state
    (executeSelectedCommand (fun st => (Session.run ops fs st).1) st)
  = (Session.run (ops ++ [InsertText r; CloseCommandPalette]) fs st).1.
Proof.
  intros Hstart Hexec. unfold executeSelectedCommand.
  rewrite Hstart, Hexec. unfold Session.run. rewrite fold_left_app.
  destruct (fold_left _ ops (st, fs)) as [st1 fs1]. reflexivity.
Qed.

(** X23.  Throughout a session that starts at the constructor and never
    calls [setContent], the cursor stays valid, the buffer has no holes
    and the command context can always be built: [createCommandContext]
    does not throw. *)
Theorem session_without_setContent_is_stable (fs0 : Fs.FS)
    (options : EditorOptions) st0 (ops : list operation) (fs : Fs.FS) :
  constructor fs0 options = JS.Ok st0 ->
  Forall (fun op => forall content, op <> SetContent content) ops ->
  cursor_valid (Session.run ops fs st0).1
  /\ Session.dense (lines (Session.run ops fs st0).1)
  /\ exists context,
       createCommandContext (Session.run ops fs st0).1 = JS.Ok context.
Proof.
  intros Hnew Hops.
  set (I := fun st => cursor_valid st /\ Session.dense (lines st)).
  assert (HI : I (Session.run ops fs st0).1).
  { apply (run_preserves_without_setContent I); subst I; cbn beta;
      try (intros; assumption).
    - intros text st [Hv Hd]. split.
      + now apply insertText_cursor_valid.
      + now apply insertText_dense.
    - intros input st Hst. unfold filterCommands. now destruct (JS.truthy _).
    - exact (constructor_stable fs0 options st0 Hnew). }
  destruct HI as [Hv Hd]. split; [exact Hv|]. split; [exact Hd|].
  pose proof (createCommandContext_spec (Session.run ops fs st0).1) as Hspec.
  destruct (createCommandContext _) as [context|e]; [eauto|].
  destruct Hspec as (_ & i & Hi & Hnone). exfalso.
  destruct Hv as (l & Hl & _). apply lookup_lt_Some in Hl.
  destruct (lookup_lt_is_Some_2 (lines (Session.run ops fs st0).1) i)
    as [slot Hslot]; [lia|].
  destruct (Hd i slot Hslot) as [l' ->].
  unfold JS.get in Hnone. rewrite Hslot in Hnone. discriminate.
Qed.

(** X24.  At a valid cursor on line [l], inserting a text with a line
    feed leaves the lines above, then [l] up to the column followed by the
    text's first piece, the middle pieces in order as lines of their own,
    the last piece followed by the rest of [l], and the lines below. *)
Theorem insertText_multi_line_layout text st (l : string) :
  lines st !! cursorLine st = Some (Some l) ->
  1 <= JS.occurrences JS.LF text ->
  let pieces := JS.split JS.LF text in
  lines (insertText text st)
  = take (cursorLine st) (lines st)
    ++ [Some (JS.slice l 0 (cursorColumn st) +:+ piece pieces 0)]
    ++ (Some <$> take (length pieces - 2) (drop 1 pieces))
    ++ [Some (piece pieces (length pieces - 1)
              +:+ JS.slice_from l (cursorColumn st))]
    ++ drop (S (cursorLine st)) (lines st).
Proof.
  intros Hl Hk. cbn zeta.
  rewrite (insertText_multi_lines text st (lookup_lt_Some _ _ _ Hl) Hk).
  now rewrite (get_lookup _ _ _ Hl).
Qed.

End StableSessions.

Lemma session_without_setContent_is_stable_witness :
  Editor.constructor (fsys := Fixture.fsys) Fixture.disk Editor.no_options
  = JS.Ok Fixture.empty_document
  /\ Editor.cursor_valid
       (Session.run (fsys := Fixture.fsys) Scenario.typing_session
          Fixture.disk Fixture.empty_document).1
  /\ exists context,
       Editor.createCommandContext
         (Session.run (fsys := Fixture.fsys) Scenario.typing_session
            Fixture.disk Fixture.empty_document).1
       = JS.Ok context.
Proof.
  split; [reflexivity|].
  destruct (session_without_setContent_is_stable (fsys := Fixture.fsys)
              Fixture.disk Editor.no_options Fixture.empty_document
              Scenario.typing_session Fixture.disk eq_refl)
    as (Hv & _ & Hctx).
  - repeat constructor; discriminate.
  - split; [exact Hv|exact Hctx].
Defined.

Lemma insertText_multi_line_layout_witness :
  Editor.lines Fixture.ab_at_0_1 !! Editor.cursorLine Fixture.ab_at_0_1
  = Some (Some "a")
  /\ Editor.lines (Editor.insertText Scenario.X_nl_Y_nl_Z Fixture.ab_at_0_1)
     = [Some "aX"; Some "Y"; Some "Z"; Some "b"].
Proof.
  split; [reflexivity|].
  refine (insertText_multi_line_layout Scenario.X_nl_Y_nl_Z Fixture.ab_at_0_1
            "a" eq_refl _).
  vm_compute; lia.
Defined.
